(** * Pink Telegram Transcriber: format classifier, transcoder adapter,
      job worker, access control and configuration loading.

    Shallow embedding of [config.py] and [bot.py].  Python [str] values are
    Rocq strings holding their UTF-8 bytes, Python sets are [gset]s, [int]
    is [Z].  Code that raises is written in a small state-and-exception
    monad whose [try_except] and [try_finally] follow Python's. *)

From Stdlib Require Import Ascii String.
From stdpp Require Import gmap strings list pretty.

Open Scope string_scope.
Open Scope Z_scope.

Definition eqb_ascii (a b : ascii) : bool := bool_decide (a = b).

(** [s.split(c)] for a one-character ASCII separator; exact on UTF-8 bytes,
    where an ASCII byte never occurs inside a longer code point. *)
Fixpoint str_split (c : ascii) (s : string) : list string :=
  match s with
  | EmptyString => [""]
  | String a s' =>
      if eqb_ascii a c then "" :: str_split c s'
      else match str_split c s' with
           | h :: t => String a h :: t
           | [] => [String a ""]
           end
  end.

(** ** Library functions the program calls

    [pathlib], [str.lower], [str.strip], [int] and [tempfile.gettempdir]
    belong to the Python runtime, not to the repository.  The embedding
    takes them as an interface, so every general theorem below holds for
    whatever the runtime does (Unicode case mapping, Windows paths, ...). *)

Class PyLib := {
  (** [Path(s).suffix] *)
  path_suffix : string → string;
  (** [s.lower()] *)
  str_lower : string → string;
  (** [s.strip()] *)
  str_strip : string → string;
  (** [int(s)]; [None] stands for [ValueError] *)
  int_of_str : string → option Z;
  (** [tempfile.gettempdir()] *)
  gettempdir : string;
}.

(** ** A concrete runtime: POSIX paths, ASCII text

    Used to run the program on concrete inputs.  It agrees with CPython on
    POSIX for ASCII strings. *)

Module Posix.

(** [s.rfind(c)], [None] for -1. *)
Fixpoint rfind (c : ascii) (s : string) : option nat :=
  match s with
  | EmptyString => None
  | String a s' =>
      match rfind c s' with
      | Some i => Some (S i)
      | None => if eqb_ascii a c then Some 0%nat else None
      end
  end.

(** [PurePosixPath(s).name]: the last component that is neither empty
    nor ["."]. *)
Definition name (s : string) : string :=
  List.last (List.filter (λ p, negb (String.eqb p "" || String.eqb p "."))
                         (str_split "/" s)) "".

(** [PurePath.suffix]:
    [i = name.rfind('.'); name[i:] if 0 < i < len(name) - 1 else ''] *)
Definition suffix (s : string) : string :=
  let n := name s in
  match rfind "." n with
  | Some i =>
      if ((0 <? i) && (i <? String.length n - 1))%nat
      then String.substring i (String.length n - i) n
      else ""
  | None => ""
  end.

Definition lower_ascii (a : ascii) : ascii :=
  let n := nat_of_ascii a in
  if ((65 <=? n) && (n <=? 90))%nat then ascii_of_nat (n + 32) else a.

Fixpoint lower (s : string) : string :=
  match s with
  | EmptyString => ""
  | String a s' => String (lower_ascii a) (lower s')
  end.

(** The ASCII characters [str.strip] removes: space, [\t], [\n], [\v],
    [\f], [\r] and the separators 0x1c-0x1f. *)
Definition is_ws (a : ascii) : bool :=
  let n := nat_of_ascii a in
  ((n =? 32) || ((9 <=? n) && (n <=? 13)) || ((28 <=? n) && (n <=? 31)))%nat.

Fixpoint lstrip (s : string) : string :=
  match s with
  | EmptyString => ""
  | String a s' => if is_ws a then lstrip s' else s
  end.

Definition strip (s : string) : string :=
  String.rev (lstrip (String.rev (lstrip s))).

Definition digit (a : ascii) : option Z :=
  let n := nat_of_ascii a in
  if ((48 <=? n) && (n <=? 57))%nat then Some (Z.of_nat n - 48) else None.

(** Digits of a decimal literal, single underscores allowed between
    digits; [acc] is the value so far, [prev] tells whether the previous
    character was a digit. *)
Fixpoint digits (acc : Z) (prev : bool) (s : string) : option Z :=
  match s with
  | EmptyString => if prev then Some acc else None
  | String a s' =>
      match digit a with
      | Some d => digits (10 * acc + d) true s'
      | None =>
          if eqb_ascii a "_" && prev then digits acc false s' else None
      end
  end.

(** [int(s)] in base 10: surrounding whitespace, an optional sign,
    digits. *)
Definition int (s : string) : option Z :=
  match strip s with
  | String "-" t => Z.opp <$> digits 0 false t
  | String "+" t => digits 0 false t
  | t => digits 0 false t
  end.

Definition lib : PyLib := {|
  path_suffix := suffix;
  str_lower := lower;
  str_strip := strip;
  int_of_str := int;
  gettempdir := "/tmp";
|}.

End Posix.

(** ** config.py: tables *)

Definition SUPPORTED_AUDIO_MIMES : gset string :=
  {[ "audio/mpeg"; "audio/mp4"; "audio/x-m4a"; "audio/mp3"; "audio/wav";
     "audio/x-wav"; "audio/wave"; "audio/ogg"; "audio/opus"; "audio/flac";
     "audio/x-flac"; "audio/aac"; "audio/aacp"; "audio/amr"; "audio/3gpp";
     "audio/webm"; "audio/wma"; "audio/x-ms-wma" ]}.

Definition SUPPORTED_VIDEO_MIMES : gset string :=
  {[ "video/mp4"; "video/mpeg"; "video/quicktime"; "video/x-matroska";
     "video/webm"; "video/x-msvideo"; "video/x-flv"; "video/3gpp";
     "video/3gpp2" ]}.

Definition AUDIO_EXTENSIONS : gset string :=
  {[ ".mp3"; ".m4a"; ".wav"; ".ogg"; ".opus";
     ".flac"; ".aac"; ".amr"; ".wma"; ".webm" ]}.

Definition VIDEO_EXTENSIONS : gset string :=
  {[ ".mp4"; ".avi"; ".mov"; ".mkv"; ".webm";
     ".flv"; ".3gp"; ".3g2"; ".mpeg"; ".mpg" ]}.

(** ** bot.py: format classifier *)

(** Python truthiness of an [Optional[str]]: [None] and [''] are false. *)
Definition truthy (o : option string) : bool :=
  match o with
  | Some s => negb (String.eqb s "")
  | None => false
  end.

(** [o in S] for an optional string (never evaluated on [None] below). *)
Definition in_set (o : option string) (S : gset string) : bool :=
  match o with
  | Some s => bool_decide (s ∈ S)
  | None => false
  end.

Inductive classification := Audio | Video | Unsupported.

Section Classifier.
Context `{PyLib}.

(** [Path(file_name).suffix.lower()] *)
Definition ext_of (file_name : string) : string :=
  str_lower (path_suffix file_name).

Definition is_audio_file (mime_type file_name : option string) : bool :=
  if truthy mime_type && in_set mime_type SUPPORTED_AUDIO_MIMES then true
  else if truthy file_name then
    in_set (ext_of <$> file_name) AUDIO_EXTENSIONS
  else false.

Definition is_video_file (mime_type file_name : option string) : bool :=
  if truthy mime_type && in_set mime_type SUPPORTED_VIDEO_MIMES then true
  else if truthy file_name then
    in_set (ext_of <$> file_name) VIDEO_EXTENSIONS
  else false.

(** The document branch of [handle_media] (bot.py 244-257): audio is
    tested first, then video, else the format is unsupported. *)
Definition classify (mime_type file_name : option string) : classification :=
  if is_audio_file mime_type file_name then Audio
  else if is_video_file mime_type file_name then Video
  else Unsupported.

End Classifier.

(** ** Exceptions and effects

    The exception classes the program distinguishes: [telegram.error.BadRequest]
    (an [Exception]), [asyncio.CancelledError] (a [BaseException] that is not
    an [Exception]) and every other [Exception]. *)

Inductive exn_class := BadRequest | CancelledError | OtherException.

Record exn := Exn { exn_cls : exn_class; exn_msg : string }.

Definition is_BadRequest (e : exn) : bool :=
  match exn_cls e with BadRequest => true | _ => false end.

Definition is_CancelledError (e : exn) : bool :=
  match exn_cls e with CancelledError => true | _ => false end.

(** [isinstance(e, Exception)] *)
Definition is_Exception (e : exn) : bool :=
  match exn_cls e with CancelledError => false | _ => true end.

(** What an outgoing message is for; a label on the call site, so that
    traces can be read without comparing texts. *)
Inductive purpose := Notice | Progress | Transcription | ErrorReport.

Definition purpose_eqb (p q : purpose) : bool :=
  match p, q with
  | Notice, Notice | Progress, Progress
  | Transcription, Transcription | ErrorReport, ErrorReport => true
  | _, _ => false
  end.

(** Observable actions.  A platform call records the platform's answer:
    [None] when it was accepted, the raised exception otherwise. *)
Inductive event :=
| EvEdit (p : purpose) (target : Z) (text : string) (r : option exn)
| EvReply (p : purpose) (to : Z) (text : string) (r : option exn)
| EvPrint (line : string)
| EvTaskDone.

(** A queued job: the tuple put on [media_queue]. *)
Record job := Job {
  file_id : string;
  message_id : Z;          (** [message.message_id] of the sender's message *)
  status_id : Z;           (** the status message [status_msg] *)
  is_video : bool;
  file_name : option string;
}.

(** The part of the world the program acts on: the temp files that exist,
    the paths whose removal the operating system refuses, the job queue and
    the trace of observable actions. *)
Record world := World {
  files : gset string;
  locked : gset string;
  queue : list job;
  trace : list event;
}.

Inductive result (A : Type) :=
| Ok (a : A)
| Raise (e : exn).
Arguments Ok {A} a.
Arguments Raise {A} e.

Definition M (A : Type) : Type := world → result A * world.

Definition ret {A} (a : A) : M A := λ w, (Ok a, w).
Definition raise {A} (e : exn) : M A := λ w, (Raise e, w).
Definition bind {A B} (m : M A) (f : A → M B) : M B :=
  λ w, match m w with
       | (Ok a, w') => f a w'
       | (Raise e, w') => (Raise e, w')
       end.

Notation "'let!' x ':=' m 'in' k" := (bind m (λ x, k))
  (at level 10, x name, m at level 100, k at level 200).
Notation "m ;;; k" := (bind m (λ _, k))
  (at level 100, right associativity).

(** [try: m  except C1: h1  except C2: h2 ...]: the first clause whose class
    test accepts the exception handles it; an exception raised by a handler
    is not handled by its sibling clauses. *)
Fixpoint select_handler {A} (hs : list ((exn → bool) * (exn → M A))) (e : exn)
  : option (M A) :=
  match hs with
  | [] => None
  | (c, h) :: hs' => if c e then Some (h e) else select_handler hs' e
  end.

Definition try_except {A} (m : M A) (hs : list ((exn → bool) * (exn → M A)))
  : M A :=
  λ w, match m w with
       | (Ok a, w') => (Ok a, w')
       | (Raise e, w') =>
           match select_handler hs e with
           | Some h => h w'
           | None => (Raise e, w')
           end
       end.

(** [try: m  finally: f]: [f] always runs; if it raises, its exception
    replaces the outcome of [m]. *)
Definition try_finally {A} (m : M A) (f : M unit) : M A :=
  λ w, match m w with
       | (r, w') =>
           match f w' with
           | (Ok _, w'') => (r, w'')
           | (Raise e, w'') => (Raise e, w'')
           end
       end.

Definition emit (ev : event) : M unit :=
  λ w, (Ok tt, World (files w) (locked w) (queue w) (trace w ++ [ev])).

Definition of_outcome (r : option exn) : M unit :=
  match r with None => ret tt | Some e => raise e end.

(** [print(line)] *)
Definition print (line : string) : M unit := emit (EvPrint line).

(** [await status_msg.edit_text(text)], answered [r] by the platform. *)
Definition edit_text (p : purpose) (target : Z) (text : string)
  (r : option exn) : M unit :=
  emit (EvEdit p target text r) ;;; of_outcome r.

(** [await message.reply_text(text)], answered [r] by the platform. *)
Definition reply_text (p : purpose) (to : Z) (text : string)
  (r : option exn) : M unit :=
  emit (EvReply p to text r) ;;; of_outcome r.

(** [path.exists()] *)
Definition path_exists (path : string) : M bool :=
  λ w, (Ok (bool_decide (path ∈ files w)), w).

(** A file appears at [path] (written by a download or by the transcoder). *)
Definition write_file (path : string) : M unit :=
  λ w, (Ok tt, World ({[path]} ∪ files w) (locked w) (queue w) (trace w)).

(** [os.remove(path)]: [FileNotFoundError] when the file is absent,
    [PermissionError] when the system refuses, else the file is gone. *)
Definition os_remove (path : string) : M unit :=
  λ w, if bool_decide (path ∈ files w) then
         if bool_decide (path ∈ locked w) then
           (Raise (Exn OtherException
                     ("[Errno 13] Permission denied: '" ++ path ++ "'")), w)
         else (Ok tt, World (files w ∖ {[path]}) (locked w) (queue w) (trace w))
       else (Raise (Exn OtherException
                      ("[Errno 2] No such file or directory: '" ++ path ++ "'")),
             w).

(** [media_queue.task_done()] *)
Definition task_done : M unit := emit EvTaskDone.

(** [await media_queue.put(j)]: the queue is unbounded, [put] appends. *)
Definition queue_put (j : job) : M unit :=
  λ w, (Ok tt, World (files w) (locked w) (queue w ++ [j]) (trace w)).

(** ** bot.py: transcoder adapter *)

(** What [subprocess.run(..., capture_output=True, text=True)] does:
    - [Completed]: the process ran, exited with [returncode], and the call
      returned;
    - [RunRaised]: the invocation raised before the process could exit
      ([OSError] when the binary is missing, [ValueError], ...);
    - [DecodeFailed]: the process ran and exited with [returncode], and
      decoding its captured output then raised [UnicodeDecodeError] (the
      output is decoded after the process has been waited for).
    The call runs in an executor thread, where every exception it can raise
    derives from [Exception]; [msg] is its text. *)
Inductive run_outcome :=
| Completed (returncode : Z)
| RunRaised (msg : string)
| DecodeFailed (returncode : Z) (msg : string).

(** The exit code of the transcoder process, when it ran to its end. *)
Definition process_exit (r : run_outcome) : option Z :=
  match r with
  | Completed rc | DecodeFailed rc _ => Some rc
  | RunRaised _ => None
  end.

(** [subprocess.run(['ffmpeg', '-i', video_path, ..., '-y', output_path])]:
    [written] tells whether the transcoder left a file at [output_path]. *)
Definition subprocess_run (r : run_outcome) (written : bool)
  (video_path output_path : string) : M Z :=
  (if written then write_file output_path else ret tt) ;;;
  match r with
  | Completed rc => ret rc
  | RunRaised msg | DecodeFailed _ msg => raise (Exn OtherException msg)
  end.

Definition extract_audio_from_video (r : run_outcome) (written : bool)
  (video_path output_path : string) : M bool :=
  try_except
    (let! returncode := subprocess_run r written video_path output_path in
     ret (returncode =? 0))
    [(is_Exception,
      λ e, print ("[Error] Failed to extract audio: " ++ exn_msg e) ;;;
           ret false)].

(** ** bot.py: the media worker *)

(** What the external collaborators answer while one job is processed, one
    field per call site of [media_worker].  A cancellation of the worker
    task reaches the job through an awaited platform call or the awaited
    transcription, which then answers with a [CancelledError]; the wait for
    the transcoder (a plain function run in an executor thread) is taken
    to run to its end.  [transcribe] belongs to the module [transcriber];
    the worker only sees the text it returns or the exception it raises.
    [stat_r] is what examining the download path answers when the download
    did not go through: [Path.exists] raises every [OSError] other than
    "no such file" (a directory that may not be searched, a name that is too
    long), with the text given. *)
Record env := MkEnv {
  mkdir_r : option exn;             (** [temp_dir.mkdir(...)] *)
  get_file_r : option exn;          (** [bot.get_file(file_id)] *)
  download_r : option exn;          (** [file.download_to_drive(path)] *)
  download_partial : bool;          (** a failed download left a file *)
  edit_extracting_r : option exn;   (** edit to "Extracting audio" *)
  ffmpeg_r : run_outcome;           (** the transcoder process *)
  ffmpeg_written : bool;            (** the transcoder left an output file *)
  edit_transcribing_r : option exn; (** edit to "Transcribing" *)
  transcribe_r : result string;     (** [transcribe(str(audio_path))] *)
  edit_result_r : option exn;       (** edit to the transcribed text *)
  reply_result_r : option exn;      (** reply with the transcribed text *)
  edit_error_r : option exn;        (** edit to the error description *)
  stat_r : option string;           (** [download_path.exists()] raising *)
}.

(** An environment in which the download path can be examined. *)
Definition Env (mk gf dl : option exn) (partial : bool) (ee : option exn)
  (ff : run_outcome) (written : bool) (et : option exn) (tr : result string)
  (er rr ex : option exn) : env :=
  MkEnv mk gf dl partial ee ff written et tr er rr ex None.

Inductive loop_ctl := Continue | Break.

Definition leaves_loop (c : loop_ctl) : bool :=
  match c with Break => true | Continue => false end.

Section Worker.
Context `{PyLib}.

(** [Path(tempfile.gettempdir()) / "pink-telegram-transcriber"] *)
Definition temp_dir : string := gettempdir ++ "/pink-telegram-transcriber".

(** [file_ext]: the suffix of the file name, else a default by kind. *)
Definition file_ext (j : job) : string :=
  let ext := if truthy (file_name j)
             then default "" (path_suffix <$> file_name j) else "" in
  if String.eqb ext "" then (if is_video j then ".mp4" else ".mp3") else ext.

Definition download_path (j : job) : string :=
  temp_dir ++ "/" ++ pretty (message_id j) ++ file_ext j.

Definition audio_path (j : job) : string :=
  if is_video j then temp_dir ++ "/" ++ pretty (message_id j) ++ "_audio.mp3"
  else download_path j.

(** [file = await bot.get_file(file_id); await file.download_to_drive(p)] *)
Definition download (e : env) (p : string) : M unit :=
  of_outcome (get_file_r e) ;;;
  match download_r e with
  | None => write_file p
  | Some ex => (if download_partial e then write_file p else ret tt) ;;;
               raise ex
  end.

(** [await loop.run_in_executor(None, transcribe, str(audio_path))] *)
Definition transcribe (e : env) (p : string) : M string :=
  match transcribe_r e with
  | Ok text => ret text
  | Raise ex => raise ex
  end.

(** [if p.exists(): os.remove(p)] *)
Definition remove_if_exists (p : string) : M unit :=
  let! b := path_exists p in if b then os_remove p else ret tt.

(** A status edit whose [BadRequest] is passed over
    ([except BadRequest: pass]). *)
Definition edit_progress (j : job) (text : string) (r : option exn) : M unit :=
  try_except (edit_text Progress (status_id j) text r)
             [(is_BadRequest, λ _ : exn, ret tt)].

(** Lines 138-173: download, extraction for a video, transcription and
    removal of the audio file; the transcribed text is the result. *)
Definition prepare (e : env) (j : job) : M string :=
  download e (download_path j) ;;;
  (if is_video j then
     edit_progress j "🎬 Extracting audio from video..." (edit_extracting_r e) ;;;
     (let! success := extract_audio_from_video (ffmpeg_r e) (ffmpeg_written e)
                       (download_path j) (audio_path j) in
      if negb success
      then raise (Exn OtherException "Failed to extract audio from video")
      else ret tt) ;;;
     os_remove (download_path j) ;;;
     edit_progress j "🎧 Transcribing..." (edit_transcribing_r e)
   else ret tt) ;;;
  let! transcribed_text := transcribe e (audio_path j) in
  remove_if_exists (audio_path j) ;;;
  ret transcribed_text.

(** Lines 175-180: edit the status message to the text; on [BadRequest]
    send the text as a new message. *)
Definition deliver (e : env) (j : job) (transcribed_text : string) : M unit :=
  try_except
    (edit_text Transcription (status_id j) transcribed_text (edit_result_r e))
    [(is_BadRequest,
      λ _ : exn, reply_text Transcription (message_id j) transcribed_text
                   (reply_result_r e))].

(** Lines 138-180: the body of the inner [try]. *)
Definition job_body (e : env) (j : job) : M unit :=
  let! transcribed_text := prepare e j in
  deliver e j transcribed_text.

(** The download went through: both of its calls returned. *)
Definition download_done (e : env) : bool :=
  match get_file_r e, download_r e with
  | None, None => true
  | _, _ => false
  end.

(** [download_path.exists()] in the error handler (line 184).  After a
    download that went through, the file was just written under that path,
    so the path can be examined; otherwise examining it raises when
    [stat_r] says so. *)
Definition exists_after_failure (e : env) (p : string) : M bool :=
  if download_done e then path_exists p
  else match stat_r e with
       | Some msg => raise (Exn OtherException msg)
       | None => path_exists p
       end.

(** Lines 182-189: [except Exception as e]. *)
Definition on_error (e : env) (j : job) (ex : exn) : M unit :=
  (let! b := exists_after_failure e (download_path j) in
   if b then os_remove (download_path j) else ret tt) ;;;
  (if is_video j then remove_if_exists (audio_path j) else ret tt) ;;;
  edit_text ErrorReport (status_id j) ("❌ Error: " ++ exn_msg ex)
    (edit_error_r e).

(** Lines 137-192: inner [try] / [except Exception] / [finally]. *)
Definition process_job (e : env) (j : job) : M unit :=
  try_finally
    (try_except (job_body e j) [(is_Exception, on_error e j)])
    task_done.

(** One turn of the [while True] loop, for the job [j] that
    [media_queue.get()] returned. *)
Definition worker_iteration (e : env) (j : job) : M loop_ctl :=
  try_except
    (of_outcome (mkdir_r e) ;;;
     process_job e j ;;;
     ret Continue)
    [(is_CancelledError, λ _ : exn, ret Break);
     (is_Exception,
      λ ex, print ("[Worker] Error: " ++ exn_msg ex) ;;; ret Continue)].

End Worker.

(** ** bot.py: update handlers *)

(** [message.audio] / [message.video]: a file with an optional name. *)
Record media := Media {
  media_file_id : string;
  media_file_name : option string;
}.

Record document := Document {
  doc_file_id : string;
  doc_mime_type : option string;
  doc_file_name : option string;
}.

(** The fields of [telegram.Message] the handlers and filters read.
    [command] is the bot command at offset 0 of the text, if the text starts
    with one (["start"] for [/start]). *)
Record message := Message {
  msg_id : Z;
  voice : option string;
  video_note : option string;
  audio : option media;
  video : option media;
  document_ : option document;
  text : option string;
  command : option string;
}.

(** An update from a known sender ([update.effective_user.id]). *)
Record update := Update {
  effective_user_id : Z;
  upd_message : message;
}.

(** [o or d] on an [Optional[str]]. *)
Definition str_or (o : option string) (d : string) : string :=
  if truthy o then default d o else d.

(** The outcome of the media-kind chain of [handle_media] (lines 217-257):
    either the early return for an unsupported document, or the values of
    [file_id], [is_video], [file_name] after the chain. *)
Inductive selection :=
| Rejected
| Selected (fid : option string) (vid : bool) (fname : option string).

Inductive handler := H_start | H_media | H_text.

Definition DENIED_START : string := "⛔ Access denied. This bot is private.".
Definition DENIED : string := "⛔ Access denied.".
Definition UNSUPPORTED_FORMAT : string :=
  "⚠️ Unsupported file format.

Supported formats: audio (MP3, WAV, M4A, OGG, FLAC, etc.) and video files (audio will be extracted).".
Definition WELCOME : string :=
  "🎤 Pink Telegram Transcriber

Send me audio or video and I'll transcribe it to text.

Supported formats:
• Voice messages
• Video notes (circles/кружочки)
• Audio files (MP3, M4A, WAV, OGG, FLAC, etc.)
• Video files (audio will be extracted)

Just send - I'll handle the rest!".
Definition PLEASE_SEND : string :=
  "🎤 Please send audio or video for transcription.

Supported formats:
• Voice messages
• Video notes (circles/кружочки)
• Audio files (MP3, M4A, WAV, OGG, FLAC, etc.)
• Video files (audio will be extracted)".

(** [await message.reply_text(text)] where the sent message is used: the
    platform answers with the new message's id or an exception. *)
Definition reply_message (p : purpose) (to : Z) (text : string)
  (r : result Z) : M Z :=
  match r with
  | Ok sent => emit (EvReply p to text None) ;;; ret sent
  | Raise ex => emit (EvReply p to text (Some ex)) ;;; raise ex
  end.

Section Handlers.
Context `{PyLib}.
(** The whitelist computed by config.py at start-up. *)
Variable ALLOWED_USER_IDS : gset Z.

Definition is_user_allowed (user_id : Z) : bool :=
  bool_decide (user_id ∈ ALLOWED_USER_IDS).

Definition select_media (m : message) : selection :=
  match voice m with
  | Some v => Selected (Some v) false (Some "voice.ogg")
  | None =>
  match video_note m with
  | Some v => Selected (Some v) true (Some "video_note.mp4")
  | None =>
  match audio m with
  | Some a => Selected (Some (media_file_id a)) false
                (Some (str_or (media_file_name a) "audio.mp3"))
  | None =>
  match video m with
  | Some v => Selected (Some (media_file_id v)) true
                (Some (str_or (media_file_name v) "video.mp4"))
  | None =>
  match document_ m with
  | Some doc =>
      match classify (doc_mime_type doc) (doc_file_name doc) with
      | Audio => Selected (Some (doc_file_id doc)) false (doc_file_name doc)
      | Video => Selected (Some (doc_file_id doc)) true (doc_file_name doc)
      | Unsupported => Rejected
      end
  | None => Selected None false None
  end end end end end.

(** Each path through a handler calls [reply_text] at most once; [r] is
    the platform's answer to that call. *)
Definition handle_media (r : result Z) (u : update) : M unit :=
  let user_id := effective_user_id u in
  let m := upd_message u in
  if negb (is_user_allowed user_id) then
    reply_message Notice (msg_id m) DENIED r ;;; ret tt
  else
    match select_media m with
    | Rejected => reply_message Notice (msg_id m) UNSUPPORTED_FORMAT r ;;; ret tt
    | Selected fid vid fname =>
        if negb (truthy fid) then ret tt
        else
          let! status_msg :=
            reply_message Progress (msg_id m)
              (if vid then "🎬 Processing video..." else "🎧 Transcribing...") r in
          queue_put (Job (default "" fid) (msg_id m) status_msg vid fname)
    end.

Definition handle_text_message (r : result Z) (u : update) : M unit :=
  let user_id := effective_user_id u in
  if negb (is_user_allowed user_id) then ret tt
  else reply_message Notice (msg_id (upd_message u)) PLEASE_SEND r ;;; ret tt.

Definition start (r : result Z) (u : update) : M unit :=
  let user_id := effective_user_id u in
  if negb (is_user_allowed user_id) then
    reply_message Notice (msg_id (upd_message u)) DENIED_START r ;;; ret tt
  else reply_message Notice (msg_id (upd_message u)) WELCOME r ;;; ret tt.

(** [create_application]: the handlers in registration order, each with
    the test its filter makes on the message. *)
Definition create_application : list ((message → bool) * handler) :=
  [ (λ m, bool_decide (command m = Some "start"), H_start);
    (λ m, bool_decide (is_Some (voice m)), H_media);
    (λ m, bool_decide (is_Some (video_note m)), H_media);
    (λ m, bool_decide (is_Some (audio m)), H_media);
    (λ m, bool_decide (is_Some (video m)), H_media);
    (λ m, bool_decide (is_Some (document_ m)), H_media);
    (λ m, truthy (text m) && negb (bool_decide (is_Some (command m))), H_text) ].

Definition run_handler (h : handler) : result Z → update → M unit :=
  match h with
  | H_start => start
  | H_media => handle_media
  | H_text => handle_text_message
  end.

(** The application runs the first registered handler whose filter
    accepts the message, and none if no filter does. *)
Definition process_update (r : result Z) (u : update) : M unit :=
  match List.find (λ fh, fst fh (upd_message u)) create_application with
  | Some (_, h) => run_handler h r u
  | None => ret tt
  end.

End Handlers.

(** ** config.py: loading the configuration *)

(** The environment after [load_dotenv()]: the two variables config.py
    reads with [os.getenv]. *)
Record environ := Environ {
  env_TELEGRAM_BOT_TOKEN : option string;
  env_ALLOWED_USER_IDS : option string;
}.

(** How importing config.py ends: [sys.exit(code)], or the module is loaded
    with its token and whitelist. *)
Inductive load_result :=
| Exit (code : Z)
| Loaded (token : string) (allowed : gset Z).

Definition ERR_TOKEN : string := "ERROR: TELEGRAM_BOT_TOKEN not set in .env file".
Definition ERR_IDS : string :=
  "ERROR: Invalid ALLOWED_USER_IDS format. Must be comma-separated integers.".
Definition WARN_EMPTY : string :=
  "WARNING: No user IDs in whitelist. Bot will not respond to anyone.".

Section Config.
Context `{PyLib}.

(** [{int(uid.strip()) for uid in pieces if uid.strip()}];
    [None] when some [int] raises [ValueError]. *)
Fixpoint parse_ids (pieces : list string) : option (gset Z) :=
  match pieces with
  | [] => Some ∅
  | uid :: rest =>
      if truthy (Some (str_strip uid)) then
        match int_of_str (str_strip uid) with
        | None => None
        | Some n => (λ ids, {[n]} ∪ ids) <$> parse_ids rest
        end
      else parse_ids rest
  end.

(** Lines 28-36: the whitelist read from [ALLOWED_USER_IDS]; [None] when
    the [try] block raises [ValueError]. *)
Definition parse_whitelist (var : option string) : option (gset Z) :=
  let ALLOWED_USER_IDS_STR := default "" var in
  if truthy (Some ALLOWED_USER_IDS_STR)
  then parse_ids (str_split "," ALLOWED_USER_IDS_STR)
  else Some ∅.

(** The module body of config.py, lines 22-39: the outcome and the lines
    printed on stderr. *)
Definition load_config (env : environ) : load_result * list string :=
  if negb (truthy (env_TELEGRAM_BOT_TOKEN env)) then (Exit 1, [ERR_TOKEN])
  else
    match parse_whitelist (env_ALLOWED_USER_IDS env) with
    | None => (Exit 1, [ERR_IDS])
    | Some ids =>
        (Loaded (default "" (env_TELEGRAM_BOT_TOKEN env)) ids,
         if bool_decide (ids = ∅) then [WARN_EMPTY] else [])
    end.

End Config.

(** ** The running system: handlers feeding the queue, one worker

    [post_init] creates one queue and one worker task.  The worker is either
    waiting in [media_queue.get()] or processing the job it took; updates
    are handled in between.  [arrived], [started] and [completed] record the
    jobs put on the queue, taken by the worker and finished, in order. *)
Record sys := Sys {
  sys_world : world;
  active : option job;
  stopped : bool;
  arrived : list job;
  started : list job;
  completed : list job;
}.

(** [post_init]: an empty queue, an idle worker. *)
Definition post_init (fs lk : gset string) : sys :=
  Sys (World fs lk [] []) None false [] [] [].

Definition set_queue (q : list job) (w : world) : world :=
  World (files w) (locked w) q (trace w).

Section System.
Context `{PyLib}.
Variable ALLOWED_USER_IDS : gset Z.

Inductive step : sys → sys → Prop :=
(** an update is dispatched to its handler *)
| step_update s u r res w' :
    process_update ALLOWED_USER_IDS r u (sys_world s) = (res, w') →
    step s (Sys w' (active s) (stopped s)
              (arrived s ++ drop (length (queue (sys_world s))) (queue w'))
              (started s) (completed s))
(** [media_queue.get()] returns the head of the queue to the idle worker *)
| step_get s j q :
    stopped s = false → active s = None → queue (sys_world s) = j :: q →
    step s (Sys (set_queue q (sys_world s)) (Some j) false
              (arrived s) (started s ++ [j]) (completed s))
(** the worker finishes its turn of the loop for the job it took *)
| step_done s j e ctl w' :
    active s = Some j →
    worker_iteration e j (sys_world s) = (Ok ctl, w') →
    step s (Sys w' None (leaves_loop ctl)
              (arrived s) (started s) (completed s ++ [j]))
(** the worker task is cancelled while it waits in [get] *)
| step_cancel s :
    active s = None →
    step s (Sys (sys_world s) None true (arrived s) (started s) (completed s)).

Definition reachable (s : sys) : Prop :=
  ∃ fs lk, rtc step (post_init fs lk) s.

End System.

(** Whether a trace holds a transcription, or an error description, that the
    platform accepted. *)
Definition is_delivered (p : purpose) (ev : event) : bool :=
  match ev with
  | EvEdit p' _ _ None | EvReply p' _ _ None => purpose_eqb p' p
  | _ => false
  end.

Definition delivered_transcription (tr : list event) : bool :=
  existsb (is_delivered Transcription) tr.

Definition delivered_error (tr : list event) : bool :=
  existsb (is_delivered ErrorReport) tr.

(** ** Vocabulary of the properties *)

(** The answer of the platform as the trace records it. *)
Definition answer (r : result Z) : option exn :=
  match r with Ok _ => None | Raise ex => Some ex end.

(** A message that is plain text: no media, a non-empty text, no command. *)
Definition plain_text (m : message) : Prop :=
  voice m = None ∧ video_note m = None ∧ audio m = None ∧ video m = None ∧
  document_ m = None ∧ truthy (text m) = true ∧ command m = None.

(** [keeps Q m]: running [m] changes neither the locked paths nor the
    queue, and only appends events accepted by [Q] to the trace. *)
Definition keeps {A} (Q : event → bool) (m : M A) : Prop :=
  ∀ w r w', m w = (r, w') →
    locked w' = locked w ∧ queue w' = queue w ∧
    ∃ tr, trace w' = (trace w ++ tr)%list ∧ forallb Q tr = true.

(** An event that is neither a transcription nor an error description. *)
Definition quiet (ev : event) : bool :=
  match ev with
  | EvEdit p _ _ _ | EvReply p _ _ _ =>
      match p with Transcription | ErrorReport => false | _ => true end
  | _ => true
  end.

(** Accepts every event: [keeps any_event m] bounds the locked paths and
    the queue only. *)
Definition any_event (ev : event) : bool := true.


(** The edit was refused with [BadRequest]. *)
Definition bad_request (r : option exn) : bool :=
  match r with Some ex => is_BadRequest ex | None => false end.

(** The events of [deliver]: the edit, then the reply if the edit was
    refused with [BadRequest]. *)
Definition deliver_events (e : env) (j : job) (text : string) : list event :=
  EvEdit Transcription (status_id j) text (edit_result_r e) ::
  (if bad_request (edit_result_r e)
   then [EvReply Transcription (message_id j) text (reply_result_r e)]
   else []).



(** A progress edit the worker gets past: accepted, or refused with
    [BadRequest]. *)
Definition passed (r : option exn) : bool :=
  match r with Some ex => is_BadRequest ex | None => true end.

(** The progress edits of a job: two for a video, none for audio. *)
Definition progress_events (e : env) (j : job) : list event :=
  if is_video j then
    [EvEdit Progress (status_id j) "🎬 Extracting audio from video..."
       (edit_extracting_r e);
     EvEdit Progress (status_id j) "🎧 Transcribing..." (edit_transcribing_r e)]
  else [].

Definition is_task_done (ev : event) : bool :=
  match ev with EvTaskDone => true | _ => false end.

(** Accepts every event but [EvTaskDone]. *)
Definition not_done (ev : event) : bool := negb (is_task_done ev).

(** [m] raises instances of [Exception] only. *)
Definition only_exceptions {A} (m : M A) : Prop :=
  ∀ w ex w', m w = (Raise ex, w') → is_Exception ex = true.

(** The answer is no [CancelledError]. *)
Definition exc_ok (r : option exn) : bool :=
  match r with Some ex => is_Exception ex | None => true end.

(** No external call of the job answers with a [CancelledError]: the
    worker task is not cancelled while the job is processed. *)
Definition calm (e : env) : bool :=
  exc_ok (mkdir_r e) && exc_ok (get_file_r e) && exc_ok (download_r e) &&
  exc_ok (edit_extracting_r e) && exc_ok (edit_transcribing_r e) &&
  match transcribe_r e with Raise ex => is_Exception ex | Ok _ => true end &&
  exc_ok (edit_result_r e) && exc_ok (reply_result_r e) &&
  exc_ok (edit_error_r e).


(** The download path can be examined in the error handler: the download
    went through, or examining the path does not raise. *)
Definition examinable (e : env) : bool :=
  download_done e || match stat_r e with None => true | Some _ => false end.

(** ** Sample inputs *)

Definition stranger_voice : update :=
  Update 7 (Message 100 (Some "AwACAgIAAx") None None None None None None).

Definition stranger_text : update :=
  Update 7 (Message 100 None None None None None (Some "hello?") None).

Definition member_voice : update :=
  Update 42 (Message 100 (Some "AwACAgIAAx") None None None None None None).

Definition voice_job : job := Job "AwACAgIAAx" 100 101 false (Some "voice.ogg").


Definition member_pdf : update :=
  Update 42 (Message 100 None None None None
               (Some (Document "BQACAgIAAx" (Some "application/pdf")
                        (Some "invoice.pdf")))
               None None).

Definition stranger_start : update :=
  Update 7 (Message 100 None None None None None (Some "/start") (Some "start")).

Definition member_help : update :=
  Update 42 (Message 100 None None None None None (Some "/help") (Some "help")).

Definition cancelled_idle : sys := Sys (World ∅ ∅ [] []) None true [] [] [].

Definition queued_after_cancel : sys :=
  Sys (World ∅ ∅ [voice_job] [EvReply Progress 100 "🎧 Transcribing..." None])
      None true [voice_job] [] [].

(** * Properties *)

(** Settles a closed decidable proposition by evaluating its decision. *)
Ltac decide_by_compute := apply (bool_decide_unpack _); vm_compute; exact I.

(** ** Format classifier *)

Lemma empty_not_audio_mime : "" ∉ SUPPORTED_AUDIO_MIMES.
Proof. decide_by_compute. Qed.

Lemma truthy_Some (s : string) : s ≠ "" → truthy (Some s) = true.
Proof.
  intros Hs. unfold truthy.
  destruct (String.eqb_spec s ""); [contradiction | reflexivity].
Qed.

Lemma in_set_Some (s : string) (S : gset string) :
  in_set (Some s) S = bool_decide (s ∈ S).
Proof. reflexivity. Qed.

Section ClassifierFacts.
Context `{PyLib}.

Lemma is_audio_file_mime (m : string) (file_name : option string) :
  m ∈ SUPPORTED_AUDIO_MIMES → is_audio_file (Some m) file_name = true.
Proof.
  intros Hm. unfold is_audio_file.
  rewrite truthy_Some, in_set_Some, bool_decide_true; [reflexivity | exact Hm |].
  intros ->. exact (empty_not_audio_mime Hm).
Qed.

(** Without a usable content-type, each predicate answers by the
    extension of a non-empty file name. *)
Lemma is_audio_file_fallback (mime : option string) (n : string) :
  truthy mime && in_set mime SUPPORTED_AUDIO_MIMES = false → n ≠ "" →
  is_audio_file mime (Some n) = bool_decide (ext_of n ∈ AUDIO_EXTENSIONS).
Proof.
  intros Hm Hn. unfold is_audio_file. rewrite Hm, truthy_Some by exact Hn.
  reflexivity.
Qed.

Lemma is_video_file_fallback (mime : option string) (n : string) :
  truthy mime && in_set mime SUPPORTED_VIDEO_MIMES = false → n ≠ "" →
  is_video_file mime (Some n) = bool_decide (ext_of n ∈ VIDEO_EXTENSIONS).
Proof.
  intros Hm Hn. unfold is_video_file. rewrite Hm, truthy_Some by exact Hn.
  reflexivity.
Qed.

Lemma unmatched_mime (mime : option string) (S : gset string) :
  (∀ m, mime = Some m → m ∉ S) → truthy mime && in_set mime S = false.
Proof.
  intros Hm. destruct mime as [m|]; [| reflexivity].
  rewrite in_set_Some, bool_decide_false by (apply Hm; reflexivity).
  apply andb_false_r.
Qed.

End ClassifierFacts.

(** C1 (the code departs from the claim): a document with the known video
    content-type [video/mp4] whose file name carries the known audio
    extension [.mp3] is classified Audio, because [is_audio_file] falls back
    to the extension before [is_video_file] looks at the content-type. *)
Theorem video_mime_audio_ext_is_audio :
  "video/mp4" ∈ SUPPORTED_VIDEO_MIMES ∧
  ("video/mp4" ∉ SUPPORTED_AUDIO_MIMES) ∧
  (@classify Posix.lib (Some "video/mp4") (Some "song.mp3")) = Audio.
Proof.
  split; [decide_by_compute |].
  split; [decide_by_compute |].
  vm_compute. reflexivity.
Qed.

(** C2 as stated fails: with no content-type, the extension [.webm] is a
    known video extension, yet the classifier answers Audio. *)
Lemma webm_without_mime_is_audio :
  (@ext_of Posix.lib "clip.webm") ∈ VIDEO_EXTENSIONS ∧
  (@classify Posix.lib None (Some "clip.webm")) = Audio ∧
  (@classify Posix.lib None (Some "clip.webm")) ≠ Video.
Proof.
  split; [decide_by_compute |].
  split; [vm_compute; reflexivity | vm_compute; discriminate].
Qed.

(** C2 (amended): when the content-type is absent or in neither content-type
    set, and the extension of the file name is a known video extension that
    is not also a known audio extension, the classifier returns Video. *)
Theorem video_ext_is_video `{PyLib} (mime : option string) (n : string) :
  (∀ m, mime = Some m →
        (m ∉ SUPPORTED_AUDIO_MIMES) ∧ (m ∉ SUPPORTED_VIDEO_MIMES)) →
  n ≠ "" →
  ext_of n ∈ VIDEO_EXTENSIONS →
  ext_of n ∉ AUDIO_EXTENSIONS →
  classify mime (Some n) = Video.
Proof.
  intros Hm Hn Hv Ha. unfold classify.
  rewrite is_audio_file_fallback, is_video_file_fallback;
    try exact Hn; try (apply unmatched_mime; intros m E; apply (Hm m E)).
  rewrite bool_decide_false, bool_decide_true by assumption. reflexivity.
Qed.

Lemma video_ext_is_video_witness :
  (∀ m, Some "application/octet-stream" = Some m →
        (m ∉ SUPPORTED_AUDIO_MIMES) ∧ (m ∉ SUPPORTED_VIDEO_MIMES)) ∧
  "Holiday.MKV" ≠ "" ∧
  (@ext_of Posix.lib "Holiday.MKV") ∈ VIDEO_EXTENSIONS ∧
  ((@ext_of Posix.lib "Holiday.MKV") ∉ AUDIO_EXTENSIONS) ∧
  (@classify Posix.lib (Some "application/octet-stream") (Some "Holiday.MKV"))
  = Video.
Proof.
  assert (Hm : ∀ m, Some "application/octet-stream" = Some m →
                 (m ∉ SUPPORTED_AUDIO_MIMES) ∧ (m ∉ SUPPORTED_VIDEO_MIMES)).
  { intros m [= <-]. split; decide_by_compute. }
  assert (Hn : "Holiday.MKV" ≠ "") by discriminate.
  assert (Hv : (@ext_of Posix.lib "Holiday.MKV") ∈ VIDEO_EXTENSIONS)
    by decide_by_compute.
  assert (Ha : (@ext_of Posix.lib "Holiday.MKV") ∉ AUDIO_EXTENSIONS)
    by decide_by_compute.
  split; [exact Hm |]. split; [exact Hn |].
  split; [exact Hv |]. split; [exact Ha |].
  exact (@video_ext_is_video Posix.lib _ _ Hm Hn Hv Ha).
Defined.

(** C3: a content-type in the known audio content-type set is classified
    Audio whatever the file name is: absent, empty, or carrying a video
    extension. *)
Theorem audio_mime_is_audio `{PyLib} (m : string) (file_name : option string) :
  m ∈ SUPPORTED_AUDIO_MIMES → classify (Some m) file_name = Audio.
Proof.
  intros Hm. unfold classify. rewrite is_audio_file_mime by exact Hm.
  reflexivity.
Qed.

Lemma audio_mime_is_audio_witness :
  "audio/ogg" ∈ SUPPORTED_AUDIO_MIMES ∧
  (@classify Posix.lib (Some "audio/ogg") (Some "clip.mp4")) = Audio.
Proof.
  assert (Hm : "audio/ogg" ∈ SUPPORTED_AUDIO_MIMES)
    by decide_by_compute.
  split; [exact Hm |].
  exact (@audio_mime_is_audio Posix.lib "audio/ogg" (Some "clip.mp4") Hm).
Defined.

(** ** Transcoder adapter *)

(** C4 as stated fails: this transcoder process exits with code zero, but
    its captured output cannot be decoded, [subprocess.run] raises and the
    adapter returns [False]. *)
Lemma exit_zero_undecodable_is_false :
  let r := DecodeFailed 0
             "'utf-8' codec can't decode byte 0xff in position 0: invalid start byte" in
  process_exit r = Some 0 ∧
  ∃ w', extract_audio_from_video r true "/tmp/in.mp4" "/tmp/out.mp3"
          (World ∅ ∅ [] [])
        = (Ok false, w') ∧
        "/tmp/out.mp3" ∈ files w'.
Proof.
  split; [reflexivity |]. eexists. split; [vm_compute; reflexivity |].
  decide_by_compute.
Qed.


(** ** Access control and handlers *)

(** Membership in the whitelist, as [is_user_allowed] computes it. *)
Lemma is_user_allowed_spec (allowed : gset Z) (user_id : Z) :
  is_user_allowed allowed user_id = true ↔ user_id ∈ allowed.
Proof. unfold is_user_allowed. apply bool_decide_eq_true. Qed.

Lemma is_user_allowed_false (allowed : gset Z) (user_id : Z) :
  user_id ∉ allowed → is_user_allowed allowed user_id = false.
Proof. intros Hn. unfold is_user_allowed. by apply bool_decide_false. Qed.



Lemma process_update_plain_text `{PyLib} (allowed : gset Z) (r : result Z)
  (u : update) :
  plain_text (upd_message u) →
  process_update allowed r u = handle_text_message allowed r u.
Proof.
  intros (Hv & Hn & Ha & Hd & Hdoc & Ht & Hc).
  unfold process_update, create_application. simpl.
  rewrite Hv, Hn, Ha, Hd, Hdoc, Ht, Hc. reflexivity.
Qed.

(** C10: a plain text message (no media, no command) from a sender outside
    the whitelist is routed to [handle_text_message], which returns at once:
    no reply is sent, no job is queued, the world is left as it was. *)
Theorem unauthorized_text_ignored `{PyLib} (allowed : gset Z) (r : result Z)
  (u : update) (w : world) :
  effective_user_id u ∉ allowed →
  plain_text (upd_message u) →
  handle_text_message allowed r u w = (Ok tt, w) ∧
  process_update allowed r u w = (Ok tt, w).
Proof.
  intros Hu Hp.
  assert (E : handle_text_message allowed r u w = (Ok tt, w)).
  { unfold handle_text_message.
    rewrite is_user_allowed_false by exact Hu. reflexivity. }
  split; [exact E |].
  rewrite process_update_plain_text by exact Hp. exact E.
Qed.

Lemma unauthorized_text_ignored_witness :
  (7 ∉ ({[42]} : gset Z)) ∧
  plain_text (upd_message stranger_text) ∧
  @process_update Posix.lib {[42]} (Ok 101) stranger_text (World ∅ ∅ [] [])
  = (Ok tt, World ∅ ∅ [] []).
Proof.
  assert (Hu : effective_user_id stranger_text ∉ ({[42]} : gset Z))
    by decide_by_compute.
  assert (Hp : plain_text (upd_message stranger_text))
    by (repeat split; reflexivity).
  split; [exact Hu |]. split; [exact Hp |].
  exact (proj2 (@unauthorized_text_ignored Posix.lib {[42]} (Ok 101)
                  stranger_text (World ∅ ∅ [] []) Hu Hp)).
Defined.

(** ** Configuration loading *)

Section ConfigFacts.
Context `{PyLib}.

(** The whitelist fails to parse exactly when some non-blank piece is not
    an integer literal. *)
Lemma parse_ids_None (pieces : list string) :
  parse_ids pieces = None ↔
  ∃ uid, uid ∈ pieces ∧ str_strip uid ≠ "" ∧ int_of_str (str_strip uid) = None.
Proof.
  induction pieces as [| p ps IH]; simpl.
  - split; [discriminate | intros (uid & Hin & _); by apply elem_of_nil in Hin].
  - destruct (String.eqb_spec (str_strip p) "") as [Eb | Eb]; simpl.
    + rewrite IH. split.
      * intros (uid & Hin & Hs & Hi). exists uid.
        split; [by apply elem_of_cons; right | done].
      * intros (uid & Hin & Hs & Hi). apply elem_of_cons in Hin as [-> | Hin];
          [contradiction | by exists uid].
    + destruct (int_of_str (str_strip p)) as [n |] eqn:Ei.
      * destruct (parse_ids ps) as [ids |] eqn:Ep; simpl.
        -- split; [discriminate |].
           intros (uid & Hin & Hs & Hi).
           apply elem_of_cons in Hin as [-> | Hin]; [congruence |].
           destruct IH as [_ IH2].
           discriminate IH2. by exists uid.
        -- split; [intros _ | reflexivity].
           destruct IH as [IH1 _]. destruct (IH1 eq_refl) as (uid & Hin & Hs & Hi).
           exists uid. split; [by apply elem_of_cons; right | done].
      * split; [intros _ | reflexivity].
        exists p. split; [by apply elem_of_cons; left | done].
Qed.

(** Blank pieces are skipped: a string of commas and blanks gives the
    empty whitelist. *)
Lemma parse_ids_blank (pieces : list string) :
  (∀ uid, uid ∈ pieces → str_strip uid = "") → parse_ids pieces = Some ∅.
Proof.
  induction pieces as [| p ps IH]; intros Hb; simpl; [reflexivity |].
  rewrite (Hb p) by (by apply elem_of_cons; left). simpl.
  apply IH. intros uid Hin. apply Hb. by apply elem_of_cons; right.
Qed.

Lemma parse_whitelist_absent : parse_whitelist None = Some ∅.
Proof. reflexivity. Qed.

End ConfigFacts.

(** C9: loading the configuration (a) exits with code 1 and the token
    diagnostic when the bot credential is absent (or empty); (b) with a
    credential, exits with code 1 and the whitelist diagnostic when the
    whitelist string is present and one of its non-blank comma-separated
    pieces is not an integer; (c) with a credential and a whitelist that
    parses to the empty set, prints the warning and continues with the empty
    whitelist. *)
Theorem load_config_outcomes `{PyLib} (env : environ) :
  (truthy (env_TELEGRAM_BOT_TOKEN env) = false →
   load_config env = (Exit 1, [ERR_TOKEN])) ∧
  (∀ s uid,
     truthy (env_TELEGRAM_BOT_TOKEN env) = true →
     env_ALLOWED_USER_IDS env = Some s → s ≠ "" →
     uid ∈ str_split "," s → str_strip uid ≠ "" →
     int_of_str (str_strip uid) = None →
     load_config env = (Exit 1, [ERR_IDS])) ∧
  (∀ tok,
     env_TELEGRAM_BOT_TOKEN env = Some tok → tok ≠ "" →
     parse_whitelist (env_ALLOWED_USER_IDS env) = Some ∅ →
     load_config env = (Loaded tok ∅, [WARN_EMPTY])).
Proof.
  split; [| split].
  - intros Ht. unfold load_config. rewrite Ht. reflexivity.
  - intros s uid Ht Es Hs Hin Hb Hi. unfold load_config. rewrite Ht. simpl.
    assert (Ep : parse_whitelist (env_ALLOWED_USER_IDS env) = None).
    { rewrite Es. unfold parse_whitelist.
      change (default "" (Some s)) with s. cbv zeta.
      rewrite truthy_Some by exact Hs.
      apply parse_ids_None. by exists uid. }
    rewrite Ep. reflexivity.
  - intros tok Et Htok Ep. unfold load_config.
    rewrite Et, truthy_Some by exact Htok. simpl. rewrite Ep.
    rewrite bool_decide_true by reflexivity. reflexivity.
Qed.

Lemma load_config_outcomes_witness :
  (@load_config Posix.lib (Environ None (Some "1,2")) = (Exit 1, [ERR_TOKEN])) ∧
  (@load_config Posix.lib (Environ (Some "123:abc") (Some "12, x7"))
   = (Exit 1, [ERR_IDS])) ∧
  (@load_config Posix.lib (Environ (Some "123:abc") (Some " , "))
   = (Loaded "123:abc" ∅, [WARN_EMPTY])).
Proof.
  split; [| split].
  - apply (proj1 (@load_config_outcomes Posix.lib (Environ None (Some "1,2")))).
    reflexivity.
  - apply (proj1 (proj2 (@load_config_outcomes Posix.lib
                           (Environ (Some "123:abc") (Some "12, x7"))))
             "12, x7" " x7").
    + reflexivity.
    + reflexivity.
    + discriminate.
    + decide_by_compute.
    + vm_compute. discriminate.
    + vm_compute. reflexivity.
  - apply (proj2 (proj2 (@load_config_outcomes Posix.lib
                           (Environ (Some "123:abc") (Some " , "))))
             "123:abc").
    + reflexivity.
    + discriminate.
    + vm_compute. reflexivity.
Defined.

(** ** The worker: what a computation leaves alone *)

Lemma keeps_intro_nil {A} (Q : event → bool) (m : M A) :
  (∀ w r w', m w = (r, w') →
     locked w' = locked w ∧ queue w' = queue w ∧ trace w' = trace w) →
  keeps Q m.
Proof.
  intros Hm w r w' E. destruct (Hm w r w' E) as (Hl & Hq & Ht).
  split; [exact Hl |]. split; [exact Hq |].
  exists []. rewrite app_nil_r. split; [exact Ht | reflexivity].
Qed.

Lemma keeps_ret {A} Q (a : A) : keeps Q (ret a).
Proof. apply keeps_intro_nil. intros w r w' [= <- <-]. done. Qed.

Lemma keeps_raise {A} Q (e : exn) : keeps Q (@raise A e).
Proof. apply keeps_intro_nil. intros w r w' [= <- <-]. done. Qed.

Lemma keeps_of_outcome Q (r : option exn) : keeps Q (of_outcome r).
Proof. destruct r; [apply keeps_raise | apply keeps_ret]. Qed.

Lemma keeps_path_exists Q (p : string) : keeps Q (path_exists p).
Proof. apply keeps_intro_nil. intros w r w' [= <- <-]. done. Qed.

Lemma keeps_write_file Q (p : string) : keeps Q (write_file p).
Proof. apply keeps_intro_nil. intros w r w' [= <- <-]. done. Qed.

Lemma keeps_os_remove Q (p : string) : keeps Q (os_remove p).
Proof.
  apply keeps_intro_nil. intros w r w'. unfold os_remove.
  repeat case_bool_decide; intros [= <- <-]; done.
Qed.

Lemma keeps_emit (Q : event → bool) (ev : event) :
  Q ev = true → keeps Q (emit ev).
Proof.
  intros HQ w r w' [= <- <-]. simpl. split; [done |]. split; [done |].
  exists [ev]. split; [done |]. simpl. by rewrite HQ.
Qed.

Lemma keeps_bind {A B} Q (m : M A) (f : A → M B) :
  keeps Q m → (∀ a, keeps Q (f a)) → keeps Q (bind m f).
Proof.
  intros Hm Hf w r w' E. unfold bind in E.
  destruct (m w) as [[a | ex] w1] eqn:E1.
  - destruct (Hm _ _ _ E1) as (Hl1 & Hq1 & tr1 & Ht1 & HQ1).
    destruct (Hf a _ _ _ E) as (Hl2 & Hq2 & tr2 & Ht2 & HQ2).
    split; [congruence |]. split; [congruence |].
    exists (tr1 ++ tr2)%list. rewrite Ht2, Ht1, app_assoc, forallb_app, HQ1, HQ2.
    done.
  - injection E as <- <-. exact (Hm _ _ _ E1).
Qed.

Lemma keeps_try_except {A} Q (m : M A) (hs : list ((exn → bool) * (exn → M A))) :
  keeps Q m → Forall (λ ch, ∀ e, keeps Q (snd ch e)) hs →
  keeps Q (try_except m hs).
Proof.
  intros Hm Hhs w r w' E. unfold try_except in E.
  destruct (m w) as [[a | ex] w1] eqn:E1.
  - injection E as <- <-. exact (Hm _ _ _ E1).
  - assert (Hsel : match select_handler hs ex with
                   | Some h => keeps Q h
                   | None => True
                   end).
    { clear E. induction Hhs as [| [c h] hs' Hh _ IH]; simpl; [done |].
      destruct (c ex); [apply Hh | exact IH]. }
    destruct (select_handler hs ex) as [h |].
    + destruct (Hm _ _ _ E1) as (Hl1 & Hq1 & tr1 & Ht1 & HQ1).
      destruct (Hsel _ _ _ E) as (Hl2 & Hq2 & tr2 & Ht2 & HQ2).
      split; [congruence |]. split; [congruence |].
      exists (tr1 ++ tr2)%list.
      rewrite Ht2, Ht1, app_assoc, forallb_app, HQ1, HQ2. done.
    + injection E as <- <-. exact (Hm _ _ _ E1).
Qed.

Lemma keeps_try_finally {A} Q (m : M A) (f : M unit) :
  keeps Q m → keeps Q f → keeps Q (try_finally m f).
Proof.
  intros Hm Hf w r w' E. unfold try_finally in E.
  destruct (m w) as [r1 w1] eqn:E1. destruct (f w1) as [[[] | ex] w2] eqn:E2;
    injection E as <- <-.
  all: destruct (Hm _ _ _ E1) as (Hl1 & Hq1 & tr1 & Ht1 & HQ1).
  all: destruct (Hf _ _ _ E2) as (Hl2 & Hq2 & tr2 & Ht2 & HQ2).
  all: split; [congruence |]; split; [congruence |].
  all: exists (tr1 ++ tr2)%list.
  all: rewrite Ht2, Ht1, app_assoc, forallb_app, HQ1, HQ2; done.
Qed.

Lemma keeps_if {A} Q (b : bool) (m1 m2 : M A) :
  keeps Q m1 → keeps Q m2 → keeps Q (if b then m1 else m2).
Proof. by destruct b. Qed.

(** Decomposes a computation along its combinators. *)
Ltac keeps_tac :=
  repeat first
    [ progress intros
    | apply keeps_bind | apply keeps_try_except | apply keeps_try_finally
    | apply keeps_if | apply keeps_ret | apply keeps_raise
    | apply keeps_of_outcome | apply keeps_path_exists
    | apply keeps_write_file | apply keeps_os_remove
    | apply keeps_emit; reflexivity
    | match goal with |- Forall _ _ => constructor; simpl end ].





Section WorkerFacts.
Context `{PyLib}.

Lemma keeps_edit_text Q (p : purpose) (t : Z) (x : string) (r : option exn) :
  Q (EvEdit p t x r) = true → keeps Q (edit_text p t x r).
Proof.
  intros HQ. unfold edit_text. apply keeps_bind; [by apply keeps_emit |].
  intros _. apply keeps_of_outcome.
Qed.

Lemma keeps_reply_text Q (p : purpose) (t : Z) (x : string) (r : option exn) :
  Q (EvReply p t x r) = true → keeps Q (reply_text p t x r).
Proof.
  intros HQ. unfold reply_text. apply keeps_bind; [by apply keeps_emit |].
  intros _. apply keeps_of_outcome.
Qed.

Lemma keeps_extract_audio Q (r : run_outcome) (wr : bool) (vp op : string) :
  (∀ l, Q (EvPrint l) = true) → keeps Q (extract_audio_from_video r wr vp op).
Proof.
  intros HQ. unfold extract_audio_from_video, subprocess_run, print.
  keeps_tac; try (destruct r; keeps_tac).
  all: by apply keeps_emit.
Qed.

Lemma keeps_remove_if_exists Q (p : string) : keeps Q (remove_if_exists p).
Proof. unfold remove_if_exists. keeps_tac. Qed.

Lemma keeps_exists_after_failure Q (e : env) (p : string) :
  keeps Q (exists_after_failure e p).
Proof.
  unfold exists_after_failure.
  destruct (download_done e); [apply keeps_path_exists |].
  destruct (stat_r e); [apply keeps_raise | apply keeps_path_exists].
Qed.

Lemma keeps_guarded_remove Q (e : env) (p : string) :
  keeps Q (let! b := exists_after_failure e p in
           if b then os_remove p else ret tt).
Proof.
  apply keeps_bind; [apply keeps_exists_after_failure |].
  intros []; [apply keeps_os_remove | apply keeps_ret].
Qed.

Lemma keeps_download Q (e : env) (p : string) : keeps Q (download e p).
Proof. unfold download. keeps_tac. destruct (download_r e); keeps_tac. Qed.

Lemma keeps_transcribe Q (e : env) (p : string) : keeps Q (transcribe e p).
Proof. unfold transcribe. destruct (transcribe_r e); keeps_tac. Qed.

Lemma keeps_edit_progress Q (j : job) (x : string) (r : option exn) :
  Q (EvEdit Progress (status_id j) x r) = true → keeps Q (edit_progress j x r).
Proof.
  intros HQ. unfold edit_progress. apply keeps_try_except.
  - by apply keeps_edit_text.
  - keeps_tac.
Qed.

(** Up to and including the removal of the audio file, the worker sends
    progress edits and prints only. *)
Lemma prepare_quiet (e : env) (j : job) : keeps quiet (prepare e j).
Proof.
  unfold prepare.
  repeat first
    [ apply keeps_download | apply keeps_transcribe
    | apply keeps_remove_if_exists | apply keeps_os_remove
    | apply keeps_edit_progress; reflexivity
    | apply keeps_extract_audio; reflexivity
    | apply keeps_ret | apply keeps_raise | apply keeps_if
    | apply keeps_bind; [| intros ?] ].
Qed.

Lemma prepare_any (e : env) (j : job) : keeps any_event (prepare e j).
Proof.
  intros w r w' E. destruct (prepare_quiet e j w r w' E) as (Hl & Hq & tr & Ht & _).
  split; [exact Hl |]. split; [exact Hq |]. exists tr. split; [exact Ht |].
  by apply forallb_forall.
Qed.

End WorkerFacts.

(** ** The worker: delivery of the result *)

Lemma bind_Ok_inv {A B} (m : M A) (f : A → M B) (w w' : world) (b : B) :
  bind m f w = (Ok b, w') → ∃ a w1, m w = (Ok a, w1) ∧ f a w1 = (Ok b, w').
Proof.
  unfold bind. destruct (m w) as [[a | ex] w1]; [| discriminate].
  intros E. by exists a, w1.
Qed.


Section DeliveryFacts.
Context `{PyLib}.

Lemma deliver_run (e : env) (j : job) (text : string) (w : world) :
  ∃ r, deliver e j text w
       = (r, World (files w) (locked w) (queue w)
               (trace w ++ deliver_events e j text)) ∧
       (r = Ok tt ↔ delivered_transcription (deliver_events e j text) = true) ∧
       delivered_error (deliver_events e j text) = false.
Proof.
  unfold deliver, deliver_events, try_except, edit_text, reply_text, bind, emit.
  destruct (edit_result_r e) as [[[] m1] |]; simpl.
  2, 3, 4: eexists; split; [reflexivity |]; split; [split |]; done.
  destruct (reply_result_r e) as [[c2 m2] |]; simpl.
  all: rewrite <- app_assoc; simpl.
  all: eexists; split; [reflexivity |]; split; [split |]; done.
Qed.

Lemma prepare_transcribed (e : env) (j : job) (w w1 : world) (text : string) :
  prepare e j w = (Ok text, w1) → transcribe_r e = Ok text.
Proof.
  unfold prepare. intros E.
  apply bind_Ok_inv in E as (_ & wa & _ & E).
  apply bind_Ok_inv in E as (_ & wb & _ & E).
  apply bind_Ok_inv in E as (t & wc & Et & E).
  apply bind_Ok_inv in E as (_ & wd & _ & E).
  injection E as -> _.
  unfold transcribe in Et. destruct (transcribe_r e); [| discriminate].
  by injection Et as -> _.
Qed.

End DeliveryFacts.

(** C6 as stated fails: the transcription of this audio job succeeds, but
    the operating system refuses to remove the audio file, and the worker
    ends its turn without any attempt to edit or send the text. *)
Lemma locked_audio_loses_transcription :
  let e := Env None None None false None (Completed 0) false None
             (Ok "hello") None None None in
  let j := Job "f2" 9 10 false (Some "voice.ogg") in
  let w := World ∅ {["/tmp/pink-telegram-transcriber/9.ogg"]} [] [] in
  transcribe_r e = Ok "hello" ∧
  ∃ fs, @worker_iteration Posix.lib e j w
        = (Ok Continue,
           World fs (locked w) []
             [EvTaskDone;
              EvPrint "[Worker] Error: [Errno 13] Permission denied: '/tmp/pink-telegram-transcriber/9.ogg'"]).
Proof.
  split; [reflexivity |]. eexists. vm_compute. reflexivity.
Qed.

(** C6 (amended): when the work up to the removal of the audio file goes
    through ([prepare] returns the text: the transcription succeeded and the
    audio file was removed or already gone), the worker first tries to edit
    the status message to the transcribed text, and sends the text as a new
    reply exactly when that edit was refused with [BadRequest]; the reply
    comes after the edit and nothing else is sent in between. *)
Theorem transcription_edit_then_reply `{PyLib} (e : env) (j : job)
  (w w1 : world) (text : string) :
  prepare e j w = (Ok text, w1) →
  transcribe_r e = Ok text ∧
  ∃ res, job_body e j w
         = (res, World (files w1) (locked w1) (queue w1)
                   (trace w1 ++
                    EvEdit Transcription (status_id j) text (edit_result_r e) ::
                    (if bad_request (edit_result_r e)
                     then [EvReply Transcription (message_id j) text
                             (reply_result_r e)]
                     else []))).
Proof.
  intros E. split; [exact (prepare_transcribed e j w w1 text E) |].
  unfold job_body, bind. rewrite E.
  destruct (deliver_run e j text w1) as (r & Er & _).
  exists r. exact Er.
Qed.

Lemma transcription_edit_then_reply_witness :
  let e := Env None None None false None (Completed 0) false None
             (Ok "hello") (Some (Exn BadRequest "Message can't be edited"))
             None None in
  let j := Job "f2" 9 10 false (Some "voice.ogg") in
  let w := World ∅ ∅ [] [] in
  @prepare Posix.lib e j w = (Ok "hello", w) ∧
  ∃ res, @job_body Posix.lib e j w
         = (res, World ∅ ∅ []
                   [EvEdit Transcription 10 "hello"
                      (Some (Exn BadRequest "Message can't be edited"));
                    EvReply Transcription 9 "hello" None]).
Proof.
  intros e j w.
  assert (E : @prepare Posix.lib e j w = (Ok "hello", w))
    by (vm_compute; reflexivity).
  split; [exact E |].
  exact (proj2 (@transcription_edit_then_reply Posix.lib e j w w "hello" E)).
Defined.

(** ** The worker: the error path *)

Section ErrorPathFacts.
Context `{PyLib}.

Lemma bind_Ok_run {A B} (m : M A) (f : A → M B) (w w1 : world) (a : A) :
  m w = (Ok a, w1) → bind m f w = f a w1.
Proof. intros E. unfold bind. by rewrite E. Qed.

Lemma remove_if_exists_unlocked (p : string) (w : world) :
  p ∉ locked w →
  remove_if_exists p w
  = (Ok tt, World (files w ∖ {[p]}) (locked w) (queue w) (trace w)).
Proof.
  intros Hp. unfold remove_if_exists, bind, path_exists, os_remove.
  destruct (decide (p ∈ files w)) as [Hin | Hin].
  - rewrite !bool_decide_true by exact Hin.
    rewrite bool_decide_false by exact Hp. reflexivity.
  - rewrite bool_decide_false by exact Hin.
    unfold ret. f_equal. destruct w as [fs lk q tr]; simpl in *.
    f_equal. apply set_eq. intros x.
    rewrite elem_of_difference, elem_of_singleton. split; [| tauto].
    intros Hx. split; [exact Hx | by intros ->].
Qed.

Lemma edit_text_run (p : purpose) (t : Z) (x : string) (r : option exn)
  (w : world) :
  edit_text p t x r w
  = (match r with None => Ok tt | Some ex => Raise ex end,
     World (files w) (locked w) (queue w) (trace w ++ [EvEdit p t x r])).
Proof. unfold edit_text, bind, emit. by destruct r. Qed.

Lemma exists_after_failure_ok (e : env) (p : string) (w : world) :
  examinable e = true → exists_after_failure e p w = path_exists p w.
Proof.
  unfold examinable, exists_after_failure.
  destruct (download_done e); [reflexivity |].
  destruct (stat_r e); [discriminate | reflexivity].
Qed.

Lemma guarded_remove_unlocked (e : env) (p : string) (w : world) :
  examinable e = true → p ∉ locked w →
  (let! b := exists_after_failure e p in if b then os_remove p else ret tt) w
  = (Ok tt, World (files w ∖ {[p]}) (locked w) (queue w) (trace w)).
Proof.
  intros He Hp. rewrite <- (remove_if_exists_unlocked p w Hp).
  unfold remove_if_exists, bind. by rewrite exists_after_failure_ok.
Qed.

(** With no lock on the job's paths and a download path that can be
    examined, the handler removes both files and asks for the edit to the
    error description. *)
Lemma on_error_unlocked (e : env) (j : job) (ex : exn) (w : world) :
  examinable e = true →
  download_path j ∉ locked w → audio_path j ∉ locked w →
  ∃ fs,
    on_error e j ex w
    = (match edit_error_r e with None => Ok tt | Some ex' => Raise ex' end,
       World fs (locked w) (queue w)
         (trace w ++ [EvEdit ErrorReport (status_id j)
                        ("❌ Error: " ++ exn_msg ex) (edit_error_r e)])) ∧
    (download_path j ∉ fs) ∧ (audio_path j ∉ fs).
Proof.
  intros He Hd Ha. unfold on_error.
  rewrite (bind_Ok_run _ _ _ _ _ (guarded_remove_unlocked e _ _ He Hd)).
  unfold audio_path in *. destruct (is_video j).
  - erewrite bind_Ok_run by (by apply remove_if_exists_unlocked).
    rewrite edit_text_run. simpl. eexists. split; [reflexivity |].
    split; rewrite ?elem_of_difference, ?elem_of_singleton; intuition.
  - erewrite bind_Ok_run by reflexivity.
    rewrite edit_text_run. simpl. eexists. split; [reflexivity |].
    split; rewrite ?elem_of_difference, ?elem_of_singleton; intuition.
Qed.

Lemma job_body_keeps (e : env) (j : job) : keeps any_event (job_body e j).
Proof.
  unfold job_body. apply keeps_bind; [apply prepare_any |].
  intros text. unfold deliver. apply keeps_try_except.
  - by apply keeps_edit_text.
  - constructor; [| constructor]. intros ex. by apply keeps_reply_text.
Qed.


Lemma download_done_examinable (e : env) :
  download_done e = true → examinable e = true.
Proof. unfold examinable. by intros ->. Qed.


(** The work before delivery can only go through after the download did. *)
Lemma prepare_Ok_download_done (e : env) (j : job) (w w1 : world)
  (text : string) :
  prepare e j w = (Ok text, w1) → download_done e = true.
Proof.
  unfold prepare. intros E.
  apply bind_Ok_inv in E as ([] & wa & Ed & _).
  unfold download, download_done, of_outcome, bind in *.
  destruct (get_file_r e); [discriminate Ed |].
  destruct (download_r e); [| reflexivity].
  simpl in Ed. destruct (download_partial e); discriminate Ed.
Qed.

Lemma process_job_failed (e : env) (j : job) (w w1 : world) (ex : exn) :
  job_body e j w = (Raise ex, w1) →
  is_Exception ex = true →
  examinable e = true →
  download_path j ∉ locked w → audio_path j ∉ locked w →
  ∃ res w2, process_job e j w = (res, w2) ∧
    (download_path j ∉ files w2) ∧ (audio_path j ∉ files w2) ∧
    trace w2 = (trace w1 ++
                [EvEdit ErrorReport (status_id j)
                   ("❌ Error: " ++ exn_msg ex) (edit_error_r e);
                 EvTaskDone])%list.
Proof.
  intros Eb Hex He Hd Ha.
  destruct (job_body_keeps e j w _ _ Eb) as (Hl & _ & _).
  rewrite <- Hl in Hd, Ha.
  destruct (on_error_unlocked e j ex w1 He Hd Ha) as (fs & Eo & Hfd & Hfa).
  unfold process_job, try_finally, try_except. rewrite Eb. simpl.
  rewrite Hex, Eo. unfold task_done, emit. simpl.
  do 2 eexists. split; [reflexivity |]. simpl.
  split; [exact Hfd |]. split; [exact Hfa |].
  by rewrite <- app_assoc.
Qed.

End ErrorPathFacts.




(** ** The worker: how a job ends *)


Section OutcomeFacts.
Context `{PyLib}.






End OutcomeFacts.

(** ** The running system *)

Section SystemFacts.
Context `{PyLib}.
Variable ALLOWED_USER_IDS : gset Z.









End SystemFacts.




(** * Further properties of the code *)

(** ** Format classifier: the remaining cases *)

Lemma empty_not_video_mime : "" ∉ SUPPORTED_VIDEO_MIMES.
Proof. decide_by_compute. Qed.

(** No content-type is both a known audio and a known video type. *)
Lemma mime_sets_disjoint (m : string) :
  m ∈ SUPPORTED_AUDIO_MIMES → m ∈ SUPPORTED_VIDEO_MIMES → False.
Proof.
  intros Ha Hv.
  assert (E : SUPPORTED_AUDIO_MIMES ∩ SUPPORTED_VIDEO_MIMES = ∅)
    by decide_by_compute.
  assert (Hm : m ∈ SUPPORTED_AUDIO_MIMES ∩ SUPPORTED_VIDEO_MIMES)
    by (apply elem_of_intersection; done).
  rewrite E in Hm. by apply not_elem_of_empty in Hm.
Qed.

(** The truthiness test on the content-type changes nothing for a table
    that does not hold the empty string. *)
Lemma mime_test (mime : option string) (S : gset string) :
  "" ∉ S → truthy mime && in_set mime S = in_set mime S.
Proof.
  intros HS. destruct mime as [m |]; [| reflexivity]. simpl.
  destruct (String.eqb_spec m "") as [-> | _]; [| reflexivity].
  simpl. symmetry. by apply bool_decide_false.
Qed.

Section ClassifierCases.
Context `{PyLib}.

Lemma is_audio_file_eq (mime fn : option string) :
  is_audio_file mime fn
  = in_set mime SUPPORTED_AUDIO_MIMES
    || (truthy fn && in_set (ext_of <$> fn) AUDIO_EXTENSIONS).
Proof.
  unfold is_audio_file. rewrite mime_test by apply empty_not_audio_mime.
  destruct (in_set mime _), (truthy fn); reflexivity.
Qed.

Lemma is_video_file_eq (mime fn : option string) :
  is_video_file mime fn
  = in_set mime SUPPORTED_VIDEO_MIMES
    || (truthy fn && in_set (ext_of <$> fn) VIDEO_EXTENSIONS).
Proof.
  unfold is_video_file. rewrite mime_test by apply empty_not_video_mime.
  destruct (in_set mime _), (truthy fn); reflexivity.
Qed.

Lemma in_set_false (o : option string) (S : gset string) :
  in_set o S = false ↔ ∀ s, o = Some s → s ∉ S.
Proof.
  destruct o as [s |]; simpl.
  - rewrite bool_decide_eq_false. split; [by intros Hs s' [= <-] | auto].
  - split; [by intros _ s [=] | done].
Qed.

Lemma name_test_false (fn : option string) (S : gset string) :
  truthy fn && in_set (ext_of <$> fn) S = false ↔
  ∀ n, fn = Some n → n ≠ "" → ext_of n ∉ S.
Proof.
  destruct fn as [n |]; simpl.
  - destruct (String.eqb_spec n "") as [-> | Hn]; simpl.
    + split; [by intros _ n' [= <-] | done].
    + rewrite bool_decide_eq_false. split; [by intros Hs n' [= <-] | auto].
  - split; [by intros _ n [=] | done].
Qed.

End ClassifierCases.

(** X1: the classifier answers Unsupported exactly when the content-type is
    absent or in neither content-type set, and the file name is absent,
    empty, or has an extension in neither extension set. *)
Theorem classify_unsupported_iff `{PyLib} (mime fn : option string) :
  classify mime fn = Unsupported ↔
  (∀ m, mime = Some m →
        (m ∉ SUPPORTED_AUDIO_MIMES) ∧ (m ∉ SUPPORTED_VIDEO_MIMES)) ∧
  (∀ n, fn = Some n → n ≠ "" →
        (ext_of n ∉ AUDIO_EXTENSIONS) ∧ (ext_of n ∉ VIDEO_EXTENSIONS)).
Proof.
  unfold classify. rewrite is_audio_file_eq, is_video_file_eq.
  pose proof (in_set_false mime SUPPORTED_AUDIO_MIMES) as Ama.
  pose proof (in_set_false mime SUPPORTED_VIDEO_MIMES) as Amv.
  pose proof (name_test_false fn AUDIO_EXTENSIONS) as Ana.
  pose proof (name_test_false fn VIDEO_EXTENSIONS) as Anv.
  destruct (in_set mime SUPPORTED_AUDIO_MIMES),
    (in_set mime SUPPORTED_VIDEO_MIMES),
    (truthy fn && in_set (ext_of <$> fn) AUDIO_EXTENSIONS),
    (truthy fn && in_set (ext_of <$> fn) VIDEO_EXTENSIONS); simpl.
  all: split; [try discriminate | intros [Hm Hn]].
  all: try (intros _; split;
            [ intros m E; split; [by apply Ama | by apply Amv]
            | intros n E Hn; split; [by apply Ana | by apply Anv] ]).
  all: try reflexivity.
  all: exfalso.
  all: try (assert (true = false) as [=]
              by (apply Ama; intros m E; by apply Hm)).
  all: try (assert (true = false) as [=]
              by (apply Amv; intros m E; by apply Hm)).
  all: try (assert (true = false) as [=]
              by (apply Ana; intros n E Hne; by apply Hn)).
  all: try (assert (true = false) as [=]
              by (apply Anv; intros n E Hne; by apply Hn)).
Qed.

(** X2: a known video content-type is classified Video whenever the file
    name does not carry a known audio extension (it is absent, empty, or
    has another extension). *)
Theorem video_mime_is_video `{PyLib} (m : string) (fn : option string) :
  m ∈ SUPPORTED_VIDEO_MIMES →
  (∀ n, fn = Some n → n ≠ "" → ext_of n ∉ AUDIO_EXTENSIONS) →
  classify (Some m) fn = Video.
Proof.
  intros Hm Hn. unfold classify. rewrite is_audio_file_eq, is_video_file_eq.
  assert (Ea : in_set (Some m) SUPPORTED_AUDIO_MIMES = false).
  { apply bool_decide_false. intros Ha. exact (mime_sets_disjoint m Ha Hm). }
  rewrite Ea, (proj2 (name_test_false fn AUDIO_EXTENSIONS) Hn). simpl.
  by rewrite bool_decide_true.
Qed.

Lemma video_mime_is_video_witness :
  "video/quicktime" ∈ SUPPORTED_VIDEO_MIMES ∧
  (@classify Posix.lib (Some "video/quicktime") (Some "IMG_0042.MOV")) = Video.
Proof.
  assert (Hm : "video/quicktime" ∈ SUPPORTED_VIDEO_MIMES) by decide_by_compute.
  split; [exact Hm |].
  apply (@video_mime_is_video Posix.lib _ _ Hm).
  intros n [= <-] _. decide_by_compute.
Defined.

(** ** Handlers: what an update does to the queue *)

Section HandlerCases.
Context `{PyLib}.
Variable allowed : gset Z.

Lemma is_user_allowed_true (user_id : Z) :
  user_id ∈ allowed → is_user_allowed allowed user_id = true.
Proof. intros Hu. unfold is_user_allowed. by apply bool_decide_true. Qed.

(** What every handler does: it leaves the files alone, and either leaves
    the queue alone or, for an allowed sender whose status reply was
    accepted, appends one job for the sender's message. *)
Lemma run_handler_effect (h : handler) (r : result Z) (u : update)
  (w w' : world) (res : result unit) :
  run_handler allowed h r u w = (res, w') →
  files w' = files w ∧ locked w' = locked w ∧
  (queue w' = queue w ∨
   ∃ j text,
     effective_user_id u ∈ allowed ∧
     queue w' = (queue w ++ [j])%list ∧
     message_id j = msg_id (upd_message u) ∧
     r = Ok (status_id j) ∧
     trace w' = (trace w ++ [EvReply Progress (msg_id (upd_message u)) text
                               None])%list).
Proof.
  destruct h; simpl.
  - unfold start, bind, reply_message, emit, ret, raise.
    destruct (negb _), r; intros [= <- <-]; simpl; auto.
  - unfold handle_media.
    destruct (is_user_allowed allowed (effective_user_id u)) eqn:Hal; simpl.
    + apply is_user_allowed_spec in Hal.
      destruct (select_media (upd_message u)) as [| fid vid fname].
      * unfold bind, reply_message, emit, ret, raise.
        destruct r; intros [= <- <-]; simpl; auto.
      * destruct (negb (truthy fid)); [intros [= <- <-]; auto |].
        unfold bind, reply_message, queue_put, emit, ret, raise.
        destruct r as [sid | ex]; intros [= <- <-]; simpl; [| auto].
        split; [done |]. split; [done |]. right.
        eexists (Job _ _ sid _ _), _. simpl. done.
    + unfold bind, reply_message, emit, ret, raise.
      destruct r; intros [= <- <-]; simpl; auto.
  - unfold handle_text_message, bind, reply_message, emit, ret, raise.
    destruct (negb _), r; intros [= <- <-]; simpl; auto.
Qed.

(** An allowed sender, a file id, an accepted status reply: one job. *)
Lemma handle_media_selected (sid : Z) (u : update) (w : world) (fid : string)
  (vid : bool) (fname : option string) :
  effective_user_id u ∈ allowed →
  select_media (upd_message u) = Selected (Some fid) vid fname →
  fid ≠ "" →
  handle_media allowed (Ok sid) u w
  = (Ok tt,
     World (files w) (locked w)
       (queue w ++ [Job fid (msg_id (upd_message u)) sid vid fname])
       (trace w ++
        [EvReply Progress (msg_id (upd_message u))
           (if vid then "🎬 Processing video..." else "🎧 Transcribing...")
           None])).
Proof.
  intros Hu Hsel Hfid. unfold handle_media.
  rewrite is_user_allowed_true by exact Hu. cbn [negb]. rewrite Hsel.
  rewrite truthy_Some by exact Hfid. reflexivity.
Qed.

End HandlerCases.

(** X3: for an allowed sender whose message yields a file id, [handle_media]
    asks for one status reply; when the platform accepts it, exactly one job
    is appended to the queue, carrying the file id, the ids of the sender's
    message and of the status message, the kind and the file name; when the
    platform refuses it, the exception leaves the handler and nothing is
    queued. *)
Theorem accepted_media_enqueued `{PyLib} (allowed : gset Z) (r : result Z)
  (u : update) (w : world) (fid : string) (vid : bool) (fname : option string) :
  effective_user_id u ∈ allowed →
  select_media (upd_message u) = Selected (Some fid) vid fname →
  fid ≠ "" →
  handle_media allowed r u w
  = match r with
    | Ok sid =>
        (Ok tt,
         World (files w) (locked w)
           (queue w ++ [Job fid (msg_id (upd_message u)) sid vid fname])
           (trace w ++
            [EvReply Progress (msg_id (upd_message u))
               (if vid then "🎬 Processing video..." else "🎧 Transcribing...")
               None]))
    | Raise ex =>
        (Raise ex,
         World (files w) (locked w) (queue w)
           (trace w ++
            [EvReply Progress (msg_id (upd_message u))
               (if vid then "🎬 Processing video..." else "🎧 Transcribing...")
               (Some ex)]))
    end.
Proof.
  intros Hu Hsel Hfid. unfold handle_media.
  rewrite is_user_allowed_true by exact Hu. simpl. rewrite Hsel.
  rewrite truthy_Some by exact Hfid. simpl.
  destruct r; reflexivity.
Qed.

Lemma accepted_media_enqueued_witness :
  (42 ∈ ({[42]} : gset Z)) ∧
  @handle_media Posix.lib {[42]} (Ok 101) member_voice (World ∅ ∅ [] [])
  = (Ok tt, World ∅ ∅ [voice_job]
              [EvReply Progress 100 "🎧 Transcribing..." None]).
Proof.
  assert (Hu : effective_user_id member_voice ∈ ({[42]} : gset Z))
    by decide_by_compute.
  split; [exact Hu |].
  exact (@accepted_media_enqueued Posix.lib {[42]} (Ok 101) member_voice
           (World ∅ ∅ [] []) "AwACAgIAAx" false (Some "voice.ogg")
           Hu eq_refl ltac:(discriminate)).
Defined.

(** X4: a message of an allowed sender that carries only a document is
    queued exactly when the classifier accepts the document: an Audio or
    Video document gives one job of that kind under the document's own file
    name; an Unsupported one gives the format notice and no job. *)
Theorem document_queued_by_class `{PyLib} (allowed : gset Z) (sid : Z)
  (u : update) (w : world) (doc : document) :
  effective_user_id u ∈ allowed →
  voice (upd_message u) = None → video_note (upd_message u) = None →
  audio (upd_message u) = None → video (upd_message u) = None →
  document_ (upd_message u) = Some doc →
  doc_file_id doc ≠ "" →
  ∃ w', handle_media allowed (Ok sid) u w = (Ok tt, w') ∧
    files w' = files w ∧
    match classify (doc_mime_type doc) (doc_file_name doc) with
    | Unsupported =>
        queue w' = queue w ∧
        trace w' = (trace w ++ [EvReply Notice (msg_id (upd_message u))
                                  UNSUPPORTED_FORMAT None])%list
    | c =>
        queue w' = (queue w ++
                    [Job (doc_file_id doc) (msg_id (upd_message u)) sid
                       (match c with Video => true | _ => false end)
                       (doc_file_name doc)])%list
    end.
Proof.
  intros Hu Hv Hn Ha Hd Hdoc Hid.
  assert (Hsel : select_media (upd_message u)
                 = match classify (doc_mime_type doc) (doc_file_name doc) with
                   | Audio => Selected (Some (doc_file_id doc)) false
                                (doc_file_name doc)
                   | Video => Selected (Some (doc_file_id doc)) true
                                (doc_file_name doc)
                   | Unsupported => Rejected
                   end).
  { unfold select_media. by rewrite Hv, Hn, Ha, Hd, Hdoc. }
  destruct (classify (doc_mime_type doc) (doc_file_name doc)) eqn:Ec.
  1, 2: rewrite (handle_media_selected allowed sid u w _ _ _ Hu Hsel Hid);
        eexists; split; [reflexivity |]; simpl; done.
  unfold handle_media. rewrite is_user_allowed_true by exact Hu. simpl.
  rewrite Hsel. eexists. split; [reflexivity |]. simpl. done.
Qed.

Lemma document_queued_by_class_witness :
  (42 ∈ ({[42]} : gset Z)) ∧
  ∃ w', @handle_media Posix.lib {[42]} (Ok 101) member_pdf (World ∅ ∅ [] [])
        = (Ok tt, w') ∧
    queue w' = [] ∧
    trace w' = [EvReply Notice 100 UNSUPPORTED_FORMAT None].
Proof.
  assert (Hu : effective_user_id member_pdf ∈ ({[42]} : gset Z))
    by decide_by_compute.
  split; [exact Hu |].
  destruct (@document_queued_by_class Posix.lib {[42]} 101 member_pdf
              (World ∅ ∅ [] [])
              (Document "BQACAgIAAx" (Some "application/pdf")
                 (Some "invoice.pdf"))
              Hu eq_refl eq_refl eq_refl eq_refl eq_refl ltac:(discriminate))
    as (w' & E & _ & Hc).
  exists w'. split; [exact E |].
  assert (Ec : @classify Posix.lib (Some "application/pdf") (Some "invoice.pdf")
               = Unsupported) by (vm_compute; reflexivity).
  simpl in Hc. rewrite Ec in Hc. exact Hc.
Defined.

(** X5: whatever the update, the sender and the platform's answer, handling
    it touches no file, and the queue either stays as it is or gains exactly
    one job at its tail; a job is gained only when the sender is in the
    whitelist and the platform accepted the status reply, and the job
    carries the ids of the sender's message and of that status message. *)
Theorem only_allowed_senders_enqueue `{PyLib} (allowed : gset Z)
  (r : result Z) (u : update) (w w' : world) (res : result unit) :
  process_update allowed r u w = (res, w') →
  files w' = files w ∧ locked w' = locked w ∧
  (queue w' = queue w ∨
   ∃ j text,
     effective_user_id u ∈ allowed ∧
     queue w' = (queue w ++ [j])%list ∧
     message_id j = msg_id (upd_message u) ∧
     r = Ok (status_id j) ∧
     trace w' = (trace w ++ [EvReply Progress (msg_id (upd_message u)) text
                               None])%list).
Proof.
  unfold process_update.
  destruct (List.find _ _) as [[f h] |].
  - apply run_handler_effect.
  - intros [= <- <-]. auto.
Qed.

Lemma only_allowed_senders_enqueue_witness :
  @process_update Posix.lib {[42]} (Ok 101) stranger_voice (World ∅ ∅ [] [])
  = (Ok tt, World ∅ ∅ [] [EvReply Notice 100 DENIED None]) ∧
  queue (World ∅ ∅ [] [EvReply Notice 100 DENIED None]) = [].
Proof.
  assert (E : @process_update Posix.lib {[42]} (Ok 101) stranger_voice
                (World ∅ ∅ [] [])
              = (Ok tt, World ∅ ∅ [] [EvReply Notice 100 DENIED None]))
    by (vm_compute; reflexivity).
  split; [exact E |].
  destruct (@only_allowed_senders_enqueue Posix.lib {[42]} _ _ _ _ _ E)
    as (_ & _ & [Hq | (j & text & Hu & _)]); [exact Hq |].
  exfalso. revert Hu. decide_by_compute.
Defined.

(** X6: a message whose text starts with the [/start] command is answered
    by [start], before any media handler is tried: one reply, the welcome
    text for a sender in the whitelist and the denial text otherwise, and
    the queue and the files are left alone. *)
Theorem start_command_replies `{PyLib} (allowed : gset Z) (r : result Z)
  (u : update) (w : world) :
  command (upd_message u) = Some "start" →
  ∃ res,
    process_update allowed r u w
    = (res, World (files w) (locked w) (queue w)
              (trace w ++
               [EvReply Notice (msg_id (upd_message u))
                  (if is_user_allowed allowed (effective_user_id u)
                   then WELCOME else DENIED_START)
                  (answer r)])).
Proof.
  intros Hc. unfold process_update, create_application. simpl.
  rewrite bool_decide_true by exact Hc. simpl.
  unfold start, bind, reply_message, emit, ret, raise.
  destruct (is_user_allowed allowed (effective_user_id u)), r; simpl;
    eexists; reflexivity.
Qed.

Lemma start_command_replies_witness :
  command (upd_message stranger_start) = Some "start" ∧
  ∃ res,
    @process_update Posix.lib {[42]} (Ok 101) stranger_start (World ∅ ∅ [] [])
    = (res, World ∅ ∅ [] [EvReply Notice 100 DENIED_START None]).
Proof.
  split; [reflexivity |].
  exact (@start_command_replies Posix.lib {[42]} (Ok 101) stranger_start
           (World ∅ ∅ [] []) eq_refl).
Defined.

(** X7: an update that carries no media and is neither a [/start] command
    nor plain text (another command such as [/help], or a message without
    text) matches no handler: nothing is sent and nothing changes, for
    every sender. *)
Theorem unmatched_update_ignored `{PyLib} (allowed : gset Z) (r : result Z)
  (u : update) (w : world) :
  voice (upd_message u) = None → video_note (upd_message u) = None →
  audio (upd_message u) = None → video (upd_message u) = None →
  document_ (upd_message u) = None →
  command (upd_message u) ≠ Some "start" →
  truthy (text (upd_message u)) = false ∨ is_Some (command (upd_message u)) →
  process_update allowed r u w = (Ok tt, w).
Proof.
  intros Hv Hn Ha Hd Hdoc Hc Ht.
  unfold process_update, create_application. simpl.
  rewrite Hv, Hn, Ha, Hd, Hdoc, bool_decide_false by exact Hc. simpl.
  destruct Ht as [-> | Hs]; [reflexivity |].
  rewrite (bool_decide_true _ Hs), andb_false_r. reflexivity.
Qed.

Lemma unmatched_update_ignored_witness :
  command (upd_message member_help) ≠ Some "start" ∧
  @process_update Posix.lib {[42]} (Ok 101) member_help (World ∅ ∅ [] [])
  = (Ok tt, World ∅ ∅ [] []).
Proof.
  assert (Hc : command (upd_message member_help) ≠ Some "start")
    by discriminate.
  split; [exact Hc |].
  exact (@unmatched_update_ignored Posix.lib {[42]} (Ok 101) member_help
           (World ∅ ∅ [] []) eq_refl eq_refl eq_refl eq_refl eq_refl Hc
           (or_intror (ex_intro _ "help" eq_refl))).
Defined.

(** ** The worker: a job that goes through *)

Lemma try_except_Ok_run {A} (m : M A) (hs : list ((exn → bool) * (exn → M A)))
  (w w1 : world) (a : A) :
  m w = (Ok a, w1) → try_except m hs w = (Ok a, w1).
Proof. intros E. unfold try_except. by rewrite E. Qed.

Lemma bind_assoc {A B C} (m : M A) (f : A → M B) (g : B → M C) (w : world) :
  bind (bind m f) g w = bind m (λ a, bind (f a) g) w.
Proof. unfold bind. by destruct (m w) as [[a | ex] w1]. Qed.

Lemma os_remove_ok (p : string) (w : world) :
  p ∈ files w → p ∉ locked w →
  os_remove p w = (Ok tt, World (files w ∖ {[p]}) (locked w) (queue w) (trace w)).
Proof.
  intros Hin Hl. unfold os_remove.
  by rewrite bool_decide_true, bool_decide_false.
Qed.

(** Removing the file that was just written, whether or not the transcoder
    left its output next to it. *)
Lemma os_remove_written (wr : bool) (p q : string) (fs lk : gset string)
  (qu : list job) (tr : list event) :
  p ∉ lk →
  os_remove p (World (if wr then {[q]} ∪ ({[p]} ∪ fs) else {[p]} ∪ fs) lk qu tr)
  = (Ok tt,
     World ((if wr then {[q]} ∪ ({[p]} ∪ fs) else {[p]} ∪ fs) ∖ {[p]}) lk qu tr).
Proof.
  intros Hl. apply os_remove_ok; [| exact Hl]. simpl.
  destruct wr; rewrite ?elem_of_union, ?elem_of_singleton; auto.
Qed.

(** Runs the first computation of a chain of [bind]s by the equation [E]
    that gives its result. *)
Ltac run_step E :=
  rewrite ?bind_assoc;
  erewrite (bind_Ok_run _ _ _ _ _) by (apply E; assumption);
  cbn [files locked queue trace].

Section SuccessFacts.
Context `{PyLib}.

Lemma edit_progress_passed (j : job) (x : string) (r : option exn) (w : world) :
  passed r = true →
  edit_progress j x r w
  = (Ok tt, World (files w) (locked w) (queue w)
              (trace w ++ [EvEdit Progress (status_id j) x r])).
Proof.
  intros Hr. unfold edit_progress, try_except. rewrite edit_text_run.
  destruct r as [[c m] |]; [| reflexivity].
  simpl in *. unfold is_BadRequest in *. simpl in *.
  destruct c; try discriminate Hr. reflexivity.
Qed.

Lemma download_ok (e : env) (p : string) (w : world) :
  get_file_r e = None → download_r e = None →
  download e p w
  = (Ok tt, World ({[p]} ∪ files w) (locked w) (queue w) (trace w)).
Proof. intros Hg Hd. unfold download. by rewrite Hg, Hd. Qed.

Lemma extract_audio_ok (wr : bool) (vp op : string) (w : world) :
  extract_audio_from_video (Completed 0) wr vp op w
  = (Ok true,
     World (if wr then {[op]} ∪ files w else files w) (locked w) (queue w)
       (trace w)).
Proof. destruct wr, w; reflexivity. Qed.

(** The work before delivery, when every step goes through. *)
Lemma prepare_success (e : env) (j : job) (w : world) (text : string) :
  get_file_r e = None → download_r e = None →
  (is_video j = true →
   ffmpeg_r e = Completed 0 ∧
   passed (edit_extracting_r e) = true ∧ passed (edit_transcribing_r e) = true) →
  transcribe_r e = Ok text →
  download_path j ∉ locked w → audio_path j ∉ locked w →
  prepare e j w
  = (Ok text,
     World (files w ∖ {[download_path j]} ∖ {[audio_path j]}) (locked w)
       (queue w) (trace w ++ progress_events e j)).
Proof.
  intros Hg Hd Hv Ht Hld Hla. unfold prepare, progress_events.
  assert (Etr : ∀ w0, transcribe e (audio_path j) w0 = (Ok text, w0)).
  { intros w0. unfold transcribe. by rewrite Ht. }
  run_step (download_ok e (download_path j) w Hg Hd).
  destruct (is_video j) eqn:Evid.
  - destruct (Hv eq_refl) as (Hff & Hp1 & Hp2). rewrite Hff.
    run_step (edit_progress_passed j "🎬 Extracting audio from video..."
                (edit_extracting_r e)
                (World ({[download_path j]} ∪ files w) (locked w) (queue w)
                   (trace w)) Hp1).
    run_step (extract_audio_ok (ffmpeg_written e) (download_path j)
                (audio_path j)).
    cbn [negb]. rewrite (bind_Ok_run (ret tt) _ _ _ tt eq_refl).
    run_step (os_remove_written (ffmpeg_written e) (download_path j)
                (audio_path j)).
    run_step (edit_progress_passed j "🎧 Transcribing..."
                (edit_transcribing_r e)).
    run_step Etr.
    run_step (remove_if_exists_unlocked (audio_path j)).
    unfold ret. f_equal. f_equal; [| by rewrite <- app_assoc].
    apply set_eq. intros x.
    destruct (ffmpeg_written e);
      rewrite ?elem_of_difference, ?elem_of_union, ?elem_of_singleton;
      intuition.
  - rewrite (bind_Ok_run (ret tt) _ _ _ tt eq_refl).
    run_step Etr.
    run_step (remove_if_exists_unlocked (audio_path j)).
    unfold ret. f_equal. f_equal; [| by rewrite app_nil_r].
    apply set_eq. intros x.
    rewrite ?elem_of_difference, ?elem_of_union, ?elem_of_singleton.
    unfold audio_path. rewrite Evid. intuition.
Qed.

End SuccessFacts.

(** X8: when the temp directory can be made, the download goes through, a
    video's transcoder exits with zero (its two progress edits accepted or
    refused with [BadRequest], which is passed over), the transcription
    returns a text, the platform accepts the edit to that text and the
    system does not refuse the removal of the job's two paths, then the
    worker's turn goes on to the next job with neither path left on disk
    and every other file untouched, and the sender sees the progress edits
    (video only), then the text; the job is marked done once, last. *)
Theorem successful_job_run `{PyLib} (e : env) (j : job) (w : world)
  (text : string) :
  mkdir_r e = None → get_file_r e = None → download_r e = None →
  (is_video j = true →
   ffmpeg_r e = Completed 0 ∧
   passed (edit_extracting_r e) = true ∧ passed (edit_transcribing_r e) = true) →
  transcribe_r e = Ok text → edit_result_r e = None →
  download_path j ∉ locked w → audio_path j ∉ locked w →
  worker_iteration e j w
  = (Ok Continue,
     World (files w ∖ {[download_path j]} ∖ {[audio_path j]}) (locked w)
       (queue w)
       (trace w ++ progress_events e j ++
        [EvEdit Transcription (status_id j) text None; EvTaskDone])).
Proof.
  intros Hm Hg Hd Hv Ht Hr Hld Hla.
  pose proof (prepare_success e j w text Hg Hd Hv Ht Hld Hla) as Ep.
  unfold worker_iteration. erewrite try_except_Ok_run; [reflexivity |].
  rewrite Hm. simpl. erewrite bind_Ok_run by reflexivity.
  erewrite bind_Ok_run; [reflexivity |].
  unfold process_job, try_finally.
  erewrite try_except_Ok_run; cycle 1.
  { unfold job_body. rewrite (bind_Ok_run _ _ _ _ _ Ep).
    unfold deliver. apply try_except_Ok_run.
    rewrite edit_text_run, Hr. reflexivity. }
  unfold task_done, emit. simpl. rewrite <- !app_assoc. reflexivity.
Qed.

Lemma successful_job_run_witness :
  let e := Env None None None false
             (Some (Exn BadRequest "Message is not modified"))
             (Completed 0) true None (Ok "hello world") None None None in
  let j := Job "f1" 7 8 true (Some "video_note.mp4") in
  let w := World ∅ ∅ [] [] in
  (@download_path Posix.lib j ∉ locked w) ∧ (@audio_path Posix.lib j ∉ locked w) ∧
  @worker_iteration Posix.lib e j w
  = (Ok Continue,
     World ∅ ∅ []
       [EvEdit Progress 8 "🎬 Extracting audio from video..."
          (Some (Exn BadRequest "Message is not modified"));
        EvEdit Progress 8 "🎧 Transcribing..." None;
        EvEdit Transcription 8 "hello world" None;
        EvTaskDone]).
Proof.
  intros e j w.
  assert (Hld : @download_path Posix.lib j ∉ locked w) by decide_by_compute.
  assert (Hla : @audio_path Posix.lib j ∉ locked w) by decide_by_compute.
  split; [exact Hld |]. split; [exact Hla |].
  rewrite (@successful_job_run Posix.lib e j w "hello world"
             eq_refl eq_refl eq_refl
             (λ _, conj eq_refl (conj eq_refl eq_refl))
             eq_refl eq_refl Hld Hla).
  vm_compute. reflexivity.
Defined.

(** ** The worker: queue accounting *)

Section AccountingFacts.
Context `{PyLib}.

Lemma job_body_not_done (e : env) (j : job) : keeps not_done (job_body e j).
Proof.
  unfold job_body, prepare, deliver.
  repeat first
    [ apply keeps_download | apply keeps_transcribe
    | apply keeps_remove_if_exists | apply keeps_os_remove
    | apply keeps_edit_progress; reflexivity
    | apply keeps_extract_audio; reflexivity
    | apply keeps_edit_text; reflexivity
    | apply keeps_reply_text; reflexivity
    | apply keeps_ret | apply keeps_raise | apply keeps_if
    | apply keeps_try_except
    | match goal with |- Forall _ _ => constructor; simpl; intros end
    | apply keeps_bind; [| intros ?] ].
Qed.

Lemma on_error_not_done (e : env) (j : job) (ex : exn) :
  keeps not_done (on_error e j ex).
Proof.
  unfold on_error.
  repeat first
    [ apply keeps_guarded_remove
    | apply keeps_remove_if_exists | apply keeps_edit_text; reflexivity
    | apply keeps_ret | apply keeps_if | apply keeps_bind; [| intros ?] ].
Qed.

(** [process_job] marks the job done once, as its last action. *)
Lemma process_job_done_last (e : env) (j : job) (w w2 : world)
  (r : result unit) :
  process_job e j w = (r, w2) →
  ∃ tr, trace w2 = (trace w ++ tr ++ [EvTaskDone])%list ∧
        forallb not_done tr = true.
Proof.
  unfold process_job, try_finally, task_done, emit.
  destruct (try_except (job_body e j) [(is_Exception, on_error e j)] w)
    as [r1 w1] eqn:E1.
  intros [= <- <-]. simpl.
  assert (Hk : keeps not_done
                 (try_except (job_body e j) [(is_Exception, on_error e j)])).
  { apply keeps_try_except; [apply job_body_not_done |].
    constructor; [| constructor]. intros ex. apply on_error_not_done. }
  destruct (Hk _ _ _ E1) as (_ & _ & tr & Ht & Hn).
  exists tr. by rewrite Ht, app_assoc.
Qed.

End AccountingFacts.

Lemma count_not_done (tr : list event) :
  forallb not_done tr = true → length (List.filter is_task_done tr) = 0%nat.
Proof.
  induction tr as [| ev tr IH]; simpl; [done |].
  intros [Hev Htr]%andb_true_iff. unfold not_done in Hev.
  destruct (is_task_done ev); [discriminate | by apply IH].
Qed.

(** X9: a turn of the worker marks its job done ([task_done]) exactly once
    when the temp directory could be made, whatever happens afterwards
    (success, failure, failure of the error handler, cancellation), and not
    at all when making the directory failed. *)
Theorem task_done_once `{PyLib} (e : env) (j : job) (w : world) :
  ∃ ctl w' tr,
    worker_iteration e j w = (Ok ctl, w') ∧
    trace w' = (trace w ++ tr)%list ∧
    length (List.filter is_task_done tr)
    = match mkdir_r e with None => 1%nat | Some _ => 0%nat end.
Proof.
  unfold worker_iteration, try_except, bind, print, emit.
  destruct (mkdir_r e) as [[c msg] |]; simpl.
  - destruct c; simpl; do 3 eexists.
    all: split; [reflexivity |]; simpl.
    2: split; [by rewrite app_nil_r | reflexivity].
    all: split; reflexivity.
  - destruct (process_job e j w) as [[[] | [c msg]] w2] eqn:Ep;
      destruct (process_job_done_last e j _ _ _ Ep) as (tr & T & Hn);
      apply count_not_done in Hn.
    + exists Continue, w2, (tr ++ [EvTaskDone])%list.
      split; [reflexivity |]. split; [exact T |].
      rewrite List.filter_app, length_app, Hn. reflexivity.
    + destruct c; simpl; do 3 eexists.
      all: split; [reflexivity |]; simpl.
      2: split; [exact T |];
         rewrite List.filter_app, length_app, Hn; reflexivity.
      all: rewrite T, <- !app_assoc; split; [reflexivity |].
      all: rewrite List.filter_app, length_app, Hn; reflexivity.
Qed.

(** ** The worker: what stops it and what does not *)

Lemma oe_ret {A} (a : A) : only_exceptions (ret a).
Proof. intros w ex w' [=]. Qed.

Lemma oe_raise {A} (ex : exn) :
  is_Exception ex = true → only_exceptions (@raise A ex).
Proof. by intros Hex w ex' w' [= <- <-]. Qed.

Lemma oe_of_outcome (r : option exn) :
  exc_ok r = true → only_exceptions (of_outcome r).
Proof. destruct r; [apply oe_raise | intros _; apply oe_ret]. Qed.

Lemma oe_emit (ev : event) : only_exceptions (emit ev).
Proof. intros w ex w' [=]. Qed.

Lemma oe_path_exists (p : string) : only_exceptions (path_exists p).
Proof. intros w ex w' [=]. Qed.

Lemma oe_write_file (p : string) : only_exceptions (write_file p).
Proof. intros w ex w' [=]. Qed.

Lemma oe_os_remove (p : string) : only_exceptions (os_remove p).
Proof.
  intros w ex w'. unfold os_remove.
  repeat case_bool_decide; intros [= <- <-]; reflexivity.
Qed.

Lemma oe_bind {A B} (m : M A) (f : A → M B) :
  only_exceptions m → (∀ a, only_exceptions (f a)) → only_exceptions (bind m f).
Proof.
  intros Hm Hf w ex w' E. unfold bind in E.
  destruct (m w) as [[a | ex1] w1] eqn:E1.
  - exact (Hf a _ _ _ E).
  - injection E as <- <-. exact (Hm _ _ _ E1).
Qed.

Lemma oe_if {A} (b : bool) (m1 m2 : M A) :
  only_exceptions m1 → only_exceptions m2 →
  only_exceptions (if b then m1 else m2).
Proof. by destruct b. Qed.

Lemma oe_try_except {A} (m : M A) (hs : list ((exn → bool) * (exn → M A))) :
  only_exceptions m → Forall (λ ch, ∀ e, only_exceptions (snd ch e)) hs →
  only_exceptions (try_except m hs).
Proof.
  intros Hm Hhs w ex w' E. unfold try_except in E.
  destruct (m w) as [[a | ex1] w1] eqn:E1; [discriminate |].
  assert (Hsel : match select_handler hs ex1 with
                 | Some h => only_exceptions h
                 | None => True
                 end).
  { clear E. induction Hhs as [| [c h] hs' Hh _ IH]; simpl; [done |].
    destruct (c ex1); [apply Hh | exact IH]. }
  destruct (select_handler hs ex1) as [h |].
  - exact (Hsel _ _ _ E).
  - injection E as <- <-. exact (Hm _ _ _ E1).
Qed.

Lemma oe_try_finally {A} (m : M A) (f : M unit) :
  only_exceptions m → only_exceptions f → only_exceptions (try_finally m f).
Proof.
  intros Hm Hf w ex w' E. unfold try_finally in E.
  destruct (m w) as [r1 w1] eqn:E1. destruct (f w1) as [[[] | ex2] w2] eqn:E2;
    injection E as -> <-.
  - exact (Hm _ _ _ E1).
  - exact (Hf _ _ _ E2).
Qed.

(** Decomposes a computation along its combinators. *)
Ltac oe_tac :=
  repeat first
    [ apply oe_ret | apply oe_emit | apply oe_path_exists
    | apply oe_write_file | apply oe_os_remove
    | apply oe_raise; reflexivity
    | apply oe_of_outcome; assumption
    | apply oe_if | apply oe_try_finally | apply oe_try_except
    | match goal with |- Forall _ _ => constructor; simpl; intros end
    | apply oe_bind; [| intros ?] ].

Section SurvivalFacts.
Context `{PyLib}.

Lemma oe_exists_after_failure (e : env) (p : string) :
  only_exceptions (exists_after_failure e p).
Proof.
  unfold exists_after_failure.
  destruct (download_done e); [apply oe_path_exists |].
  destruct (stat_r e); [by apply oe_raise | apply oe_path_exists].
Qed.

Lemma calm_fields (e : env) :
  calm e = true →
  exc_ok (mkdir_r e) = true ∧ exc_ok (get_file_r e) = true ∧
  exc_ok (download_r e) = true ∧ exc_ok (edit_extracting_r e) = true ∧
  exc_ok (edit_transcribing_r e) = true ∧
  (∀ ex, transcribe_r e = Raise ex → is_Exception ex = true) ∧
  exc_ok (edit_result_r e) = true ∧ exc_ok (reply_result_r e) = true ∧
  exc_ok (edit_error_r e) = true.
Proof.
  unfold calm. rewrite !andb_true_iff.
  intros [[[[[[[[? ?] ?] ?] ?] Ht] ?] ?] ?]. repeat split; try assumption.
  intros ex Ex. by rewrite Ex in Ht.
Qed.

(** With no cancellation, nothing but an [Exception] can leave the body of
    the worker's outer [try]. *)
Lemma turn_only_exceptions (e : env) (j : job) :
  calm e = true →
  only_exceptions (of_outcome (mkdir_r e) ;;; process_job e j ;;; ret Continue).
Proof.
  intros (Hmk & Hg & Hd & He1 & He2 & Ht & Hr & Hrp & Her)%calm_fields.
  unfold process_job, job_body, prepare, deliver, on_error, download,
    edit_progress, extract_audio_from_video, subprocess_run, transcribe,
    remove_if_exists, edit_text, reply_text, task_done, print.
  oe_tac.
  - destruct (download_r e) as [ex |] eqn:Ed; oe_tac.
    apply oe_raise. exact Hd.
  - destruct (ffmpeg_r e); oe_tac.
  - destruct (transcribe_r e) as [t | ex] eqn:Et; oe_tac.
    apply oe_raise. by apply Ht.
  - destruct (stat_r e); [by apply oe_raise | apply oe_path_exists].
Qed.

End SurvivalFacts.

(** X10: as long as the worker task is not cancelled (no external call
    answers with a [CancelledError]), a turn of the worker never leaves the
    loop: whatever fails (download, transcoder, transcription, removals,
    platform edits, even the error edit), the turn returns and the worker
    continues with the next job. *)
Theorem worker_survives_failures `{PyLib} (e : env) (j : job) (w : world) :
  calm e = true →
  ∃ w', worker_iteration e j w = (Ok Continue, w').
Proof.
  intros Hc. pose proof (turn_only_exceptions e j Hc w) as Hoe.
  unfold worker_iteration, try_except. simpl.
  destruct ((of_outcome (mkdir_r e) ;;; process_job e j ;;; ret Continue) w)
    as [[ctl | ex] w1] eqn:E.
  - unfold bind in E.
    destruct (of_outcome (mkdir_r e) w) as [[[] | ex1] wa]; [| discriminate].
    destruct (process_job e j wa) as [[[] | ex2] wb]; [| discriminate].
    injection E as <- <-. by eexists.
  - specialize (Hoe ex w1 eq_refl).
    unfold is_CancelledError, is_Exception in *.
    destruct (exn_cls ex); try discriminate Hoe; simpl; by eexists.
Qed.

Lemma worker_survives_failures_witness :
  let down := Exn OtherException "Timed out" in
  let e := Env None (Some down) None false None (Completed 0) false None
             (Ok "hello") None None (Some down) in
  calm e = true ∧
  ∃ w', @worker_iteration Posix.lib e voice_job (World ∅ ∅ [] [])
        = (Ok Continue, w').
Proof.
  intros down e. split; [reflexivity |].
  exact (@worker_survives_failures Posix.lib e voice_job (World ∅ ∅ [] [])
           eq_refl).
Defined.

(** X11: when the worker task is cancelled while an audio job waits for its
    transcription, the turn leaves the loop; the job is marked done, but no
    message is sent to the sender and the downloaded file stays on disk. *)
Theorem cancelled_transcription_leaves_file `{PyLib} (e : env) (j : job)
  (w : world) (ex : exn) :
  is_video j = false →
  mkdir_r e = None → get_file_r e = None → download_r e = None →
  transcribe_r e = Raise ex → is_CancelledError ex = true →
  worker_iteration e j w
  = (Ok Break,
     World ({[download_path j]} ∪ files w) (locked w) (queue w)
       (trace w ++ [EvTaskDone])).
Proof.
  intros Hv Hm Hg Hd Ht Hex.
  assert (Hne : is_Exception ex = false).
  { unfold is_CancelledError, is_Exception in *. by destruct (exn_cls ex). }
  assert (Ep : prepare e j w
               = (Raise ex, World ({[download_path j]} ∪ files w) (locked w)
                              (queue w) (trace w))).
  { unfold prepare. run_step (download_ok e (download_path j) w Hg Hd).
    rewrite Hv. rewrite (bind_Ok_run (ret tt) _ _ _ tt eq_refl).
    unfold bind, transcribe. by rewrite Ht. }
  unfold worker_iteration, try_except, process_job, try_finally, job_body.
  rewrite Hm. simpl. unfold bind at 1. simpl. unfold bind at 1.
  unfold try_except, bind at 1. rewrite Ep. simpl. rewrite Hne. simpl.
  by rewrite Hex.
Qed.

Lemma cancelled_transcription_leaves_file_witness :
  let stop := Exn CancelledError "" in
  let e := Env None None None false None (Completed 0) false None
             (Raise stop) None None None in
  is_CancelledError stop = true ∧
  @worker_iteration Posix.lib e voice_job (World ∅ ∅ [] [])
  = (Ok Break,
     World {["/tmp/pink-telegram-transcriber/100.ogg"]} ∅ [] [EvTaskDone]).
Proof.
  intros stop e. split; [reflexivity |].
  rewrite (@cancelled_transcription_leaves_file Posix.lib e voice_job
             (World ∅ ∅ [] []) stop eq_refl eq_refl eq_refl eq_refl eq_refl
             eq_refl).
  vm_compute. reflexivity.
Defined.

(** X12: when the work before delivery went through but the platform
    answers the edit to the transcribed text with an [Exception] other than
    [BadRequest] (a time-out, a network error), no reply is tried: the
    error handler runs, removes what is left of the job's files if the
    system lets it, and asks for the edit to the error description holding
    that exception's text; the transcribed text is not sent. *)
Theorem failed_edit_is_reported `{PyLib} (e : env) (j : job) (w w1 : world)
  (text : string) (ex : exn) :
  prepare e j w = (Ok text, w1) →
  edit_result_r e = Some ex →
  is_BadRequest ex = false → is_Exception ex = true →
  download_path j ∉ locked w → audio_path j ∉ locked w →
  ∃ res w2, process_job e j w = (res, w2) ∧
    trace w2 = (trace w1 ++
                [EvEdit Transcription (status_id j) text (Some ex);
                 EvEdit ErrorReport (status_id j) ("❌ Error: " ++ exn_msg ex)
                   (edit_error_r e);
                 EvTaskDone])%list ∧
    (download_path j ∉ files w2) ∧ (audio_path j ∉ files w2).
Proof.
  intros Ep Hr Hnb Hex Hld Hla.
  assert (Eb : job_body e j w
               = (Raise ex,
                  World (files w1) (locked w1) (queue w1)
                    (trace w1 ++
                     [EvEdit Transcription (status_id j) text (Some ex)]))).
  { unfold job_body. rewrite (bind_Ok_run _ _ _ _ _ Ep).
    unfold deliver, try_except. rewrite edit_text_run, Hr. simpl.
    by rewrite Hnb. }
  pose proof (download_done_examinable e
                (prepare_Ok_download_done e j w w1 text Ep)) as Hexm.
  destruct (process_job_failed e j w _ ex Eb Hex Hexm Hld Hla)
    as (res & w2 & E2 & Hfd & Hfa & Ht).
  exists res, w2. split; [exact E2 |]. split; [| done].
  rewrite Ht. simpl. by rewrite <- app_assoc.
Qed.

Lemma failed_edit_is_reported_witness :
  let down := Exn OtherException "Timed out" in
  let e := Env None None None false None (Completed 0) false None
             (Ok "hello") (Some down) None None in
  let w := World ∅ ∅ [] [] in
  @prepare Posix.lib e voice_job w = (Ok "hello", w) ∧
  ∃ res w2, @process_job Posix.lib e voice_job w = (res, w2) ∧
    trace w2 = [EvEdit Transcription 101 "hello" (Some down);
                EvEdit ErrorReport 101 "❌ Error: Timed out" None;
                EvTaskDone].
Proof.
  intros down e w.
  assert (Ep : @prepare Posix.lib e voice_job w = (Ok "hello", w))
    by (vm_compute; reflexivity).
  split; [exact Ep |].
  destruct (@failed_edit_is_reported Posix.lib e voice_job w w "hello" down
              Ep eq_refl eq_refl eq_refl
              ltac:(decide_by_compute) ltac:(decide_by_compute))
    as (res & w2 & E2 & Ht & _).
  exists res, w2. split; [exact E2 | exact Ht].
Defined.

(** ** The worker: temp file names *)

(** X13: for a video job whose file-name suffix is empty or starts with a
    dot (as a path suffix does), the file the transcoder reads and the file
    it writes are different paths. *)
Theorem video_paths_distinct `{PyLib} (j : job) :
  is_video j = true →
  (∀ n, file_name j = Some n →
        path_suffix n = "" ∨ ∃ t, path_suffix n = String "." t) →
  download_path j ≠ audio_path j.
Proof.
  intros Hv Hs. unfold audio_path, download_path. rewrite Hv.
  intros E.
  do 3 apply (inj (String.app _)) in E.
  unfold file_ext in E. rewrite Hv in E.
  destruct (truthy (file_name j)).
  - destruct (file_name j) as [n |]; simpl in E.
    + destruct (Hs n eq_refl) as [E0 | (t & E0)]; rewrite E0 in E; simpl in E;
        discriminate E.
    + discriminate E.
  - simpl in E. discriminate E.
Qed.

Lemma video_paths_distinct_witness :
  let j := Job "f1" 7 8 true (Some "video_note.mp4") in
  @download_path Posix.lib j ≠ @audio_path Posix.lib j.
Proof.
  intros j. apply (@video_paths_distinct Posix.lib j eq_refl).
  intros n [= <-]. right. exists "mp4". vm_compute. reflexivity.
Defined.

(** ** Configuration: the whitelist that is loaded *)

Section WhitelistFacts.
Context `{PyLib}.

(** The parsed whitelist holds exactly the integers of the non-blank
    pieces. *)
Lemma parse_ids_elem (pieces : list string) (ids : gset Z) (n : Z) :
  parse_ids pieces = Some ids →
  n ∈ ids ↔
  ∃ uid, uid ∈ pieces ∧ str_strip uid ≠ "" ∧ int_of_str (str_strip uid) = Some n.
Proof.
  revert ids. induction pieces as [| p ps IH]; intros ids; simpl.
  - intros [= <-]. split; [by intros ?%not_elem_of_empty |].
    intros (uid & Hin & _). by apply elem_of_nil in Hin.
  - destruct (String.eqb_spec (str_strip p) "") as [Eb | Eb]; simpl.
    + intros Ep. rewrite (IH ids Ep). split.
      * intros (uid & Hin & Hs & Hi). exists uid.
        split; [by apply elem_of_cons; right | done].
      * intros (uid & Hin & Hs & Hi).
        apply elem_of_cons in Hin as [-> | Hin]; [contradiction | by exists uid].
    + destruct (int_of_str (str_strip p)) as [k |] eqn:Ei; [| discriminate].
      destruct (parse_ids ps) as [ids' |]; [| discriminate]. simpl.
      intros [= <-]. rewrite elem_of_union, elem_of_singleton, (IH ids' eq_refl).
      split.
      * intros [-> | (uid & Hin & Hs & Hi)].
        -- exists p. split; [by apply elem_of_cons; left | done].
        -- exists uid. split; [by apply elem_of_cons; right | done].
      * intros (uid & Hin & Hs & Hi).
        apply elem_of_cons in Hin as [-> | Hin]; [left; congruence |].
        right. by exists uid.
Qed.

End WhitelistFacts.

(** X14: when the configuration loads, the senders [is_user_allowed] lets
    in are exactly the integers written in the non-blank comma-separated
    pieces of a non-empty [ALLOWED_USER_IDS]; with the variable unset or
    empty nobody is let in. *)
Theorem loaded_whitelist_members `{PyLib} (env : environ) (tok : string)
  (ids : gset Z) (err : list string) (n : Z) :
  load_config env = (Loaded tok ids, err) →
  is_user_allowed ids n = true ↔
  ∃ s uid, env_ALLOWED_USER_IDS env = Some s ∧ s ≠ "" ∧
           uid ∈ str_split "," s ∧ str_strip uid ≠ "" ∧
           int_of_str (str_strip uid) = Some n.
Proof.
  unfold load_config. destruct (negb _); [discriminate |].
  destruct (parse_whitelist (env_ALLOWED_USER_IDS env)) as [ids' |] eqn:Ep;
    [| discriminate].
  intros [= _ <- _]. rewrite is_user_allowed_spec.
  unfold parse_whitelist in Ep.
  destruct (env_ALLOWED_USER_IDS env) as [s |];
    [change (default "" (Some s)) with s in Ep | simpl in Ep]; cbv zeta in Ep.
  - destruct (decide (s = "")) as [-> | Hs];
      [simpl in Ep | rewrite truthy_Some in Ep by exact Hs].
    + injection Ep as <-. split; [by intros ?%not_elem_of_empty |].
      by intros (s & uid & [= <-] & Hne & _).
    + rewrite (parse_ids_elem _ _ n Ep). split.
      * intros (uid & Hin & Hb & Hi). by exists s, uid.
      * intros (s' & uid & [= <-] & _ & Hin & Hb & Hi). by exists uid.
  - injection Ep as <-. split; [by intros ?%not_elem_of_empty |].
    intros (s & uid & Hs & _). discriminate Hs.
Qed.

Lemma loaded_whitelist_members_witness :
  @load_config Posix.lib (Environ (Some "123:abc") (Some "42, 7,,42"))
  = (Loaded "123:abc" {[42; 7]}, []) ∧
  is_user_allowed {[42; 7]} 7 = true.
Proof.
  assert (E : @load_config Posix.lib (Environ (Some "123:abc") (Some "42, 7,,42"))
              = (Loaded "123:abc" {[42; 7]}, []))
    by (vm_compute; reflexivity).
  split; [exact E |].
  apply (@loaded_whitelist_members Posix.lib _ _ _ _ 7 E).
  exists "42, 7,,42", " 7". split; [reflexivity |]. split; [discriminate |].
  split; [decide_by_compute |]. split; [vm_compute; discriminate |].
  vm_compute. reflexivity.
Defined.

(** X15: the whitelist depends on the set of pieces only: two lists with
    the same pieces, in any order and with any repetition, parse to the same
    whitelist, or both fail to parse. *)
Theorem parse_ids_same_pieces `{PyLib} (ps1 ps2 : list string) :
  (∀ uid, uid ∈ ps1 ↔ uid ∈ ps2) → parse_ids ps1 = parse_ids ps2.
Proof.
  intros Hsame.
  destruct (parse_ids ps1) as [ids1 |] eqn:E1,
    (parse_ids ps2) as [ids2 |] eqn:E2.
  - f_equal. apply set_eq. intros n.
    rewrite (parse_ids_elem _ _ n E1), (parse_ids_elem _ _ n E2).
    split; intros (uid & Hin & Hrest); exists uid; (split; [| exact Hrest]);
      by apply Hsame.
  - apply parse_ids_None in E2 as (uid & Hin & Hrest).
    assert (E : parse_ids ps1 = None)
      by (apply parse_ids_None; exists uid; split; [by apply Hsame | done]).
    congruence.
  - apply parse_ids_None in E1 as (uid & Hin & Hrest).
    assert (E : parse_ids ps2 = None)
      by (apply parse_ids_None; exists uid; split; [by apply Hsame | done]).
    congruence.
  - reflexivity.
Qed.

Lemma parse_ids_same_pieces_witness :
  (∀ uid, uid ∈ ["42"; " 7"; "42"] ↔ uid ∈ [" 7"; "42"]) ∧
  @parse_ids Posix.lib ["42"; " 7"; "42"] = @parse_ids Posix.lib [" 7"; "42"].
Proof.
  assert (Hs : ∀ uid : string, uid ∈ ["42"; " 7"; "42"] ↔ uid ∈ [" 7"; "42"]).
  { intros uid. rewrite !elem_of_cons, !elem_of_nil. tauto. }
  split; [exact Hs |].
  exact (@parse_ids_same_pieces Posix.lib _ _ Hs).
Defined.

(** ** The running system: after the worker has stopped *)

Section ShutdownFacts.
Context `{PyLib}.
Variable allowed : gset Z.

(** A stopped worker holds no job. *)
Lemma stopped_idle_step (s s' : sys) :
  step allowed s s' →
  (stopped s = true → active s = None) →
  stopped s' = true → active s' = None.
Proof.
  intros Hstep Hinv.
  destruct Hstep as [s u r res w' Eu | s j q Hst Hact Hq | s j e ctl w' Hact Ew
                    | s Hact]; simpl; auto.
  discriminate.
Qed.

Lemma stopped_idle (s : sys) :
  reachable allowed s → stopped s = true → active s = None.
Proof.
  intros (fs & lk & Hrtc).
  eapply (rtc_ind_r (λ s, stopped s = true → active s = None));
    [| | exact Hrtc].
  - reflexivity.
  - intros s1 s2 _ Hstep IH. by eapply stopped_idle_step.
Qed.

(** From a stopped, idle worker a step changes neither the jobs started nor
    the jobs finished, and the worker stays stopped and idle. *)
Lemma stopped_step (s s' : sys) :
  step allowed s s' → stopped s = true → active s = None →
  stopped s' = true ∧ active s' = None ∧
  started s' = started s ∧ completed s' = completed s.
Proof.
  intros Hstep Hst Hidle.
  destruct Hstep as [s u r res w' Eu | s j q Hst' Hact Hq | s j e ctl w' Hact Ew
                    | s Hact]; simpl; auto; congruence.
Qed.

End ShutdownFacts.

(** X16: once the worker has left its loop (it was cancelled), it never
    takes a job again: in every later state of the system the jobs started
    and the jobs finished are the same as when it stopped, however many
    updates are still handled and queued. *)
Theorem stopped_worker_starts_nothing `{PyLib} (allowed : gset Z) (s s' : sys) :
  reachable allowed s → stopped s = true →
  rtc (step allowed) s s' →
  stopped s' = true ∧ active s' = None ∧
  started s' = started s ∧ completed s' = completed s.
Proof.
  intros Hr Hst Hrtc.
  pose proof (stopped_idle allowed s Hr Hst) as Hidle.
  eapply (rtc_ind_r (λ s', stopped s' = true ∧ active s' = None ∧
                           started s' = started s ∧ completed s' = completed s));
    [| | exact Hrtc].
  - done.
  - intros s1 s2 _ Hstep (Hst1 & Hid1 & Hs1 & Hc1).
    destruct (stopped_step allowed s1 s2 Hstep Hst1 Hid1)
      as (Hst2 & Hid2 & Hs2 & Hc2).
    repeat split; congruence.
Qed.

Lemma stopped_worker_starts_nothing_witness :
  @reachable Posix.lib {[42]} cancelled_idle ∧
  stopped cancelled_idle = true ∧
  rtc (@step Posix.lib {[42]}) cancelled_idle queued_after_cancel ∧
  started queued_after_cancel = [] ∧ completed queued_after_cancel = [].
Proof.
  assert (Hr : @reachable Posix.lib {[42]} cancelled_idle).
  { exists ∅, ∅. eapply rtc_l; [| apply rtc_refl].
    exact (@step_cancel Posix.lib {[42]} (post_init ∅ ∅) eq_refl). }
  assert (Hrtc : rtc (@step Posix.lib {[42]}) cancelled_idle queued_after_cancel).
  { eapply rtc_l; [| apply rtc_refl].
    eapply (@step_update Posix.lib {[42]} cancelled_idle member_voice (Ok 101)).
    vm_compute. reflexivity. }
  split; [exact Hr |]. split; [reflexivity |]. split; [exact Hrtc |].
  destruct (@stopped_worker_starts_nothing Posix.lib {[42]} _ _ Hr eq_refl Hrtc)
    as (_ & _ & Hs & Hc).
  split; [exact Hs | exact Hc].
Defined.

(** ** The worker: the files it touches *)

Section ConfinedFacts.
Variable P : string → Prop.













End ConfinedFacts.



